(** * Spotify Artist Explorer (main.py): a shallow embedding and its properties

    The development follows the layout of [main.py]:
    - [Py]: the Python values the program manipulates (parsed JSON, exceptions,
      f-strings) and the error/state monad its effectful code runs in;
    - [Spotify]: the API helpers [get_token], [auth_header], [search_artists],
      [get_artist_top_tracks], [get_artist_albums];
    - [Preview]: the [PreviewPlayer] class together with the audio engine and the
      temporary files it drives;
    - [App]: the widget-building methods of [SpotifyApp].

    Strings are byte strings (Python's [str] for ASCII text; other text is its
    UTF-8 encoding).  Fonts, paddings and the other purely visual options of the
    widgets are left out; texts, colours, grid cells, button states and button
    commands are kept. *)

From stdpp Require Import base option list strings gmap fin_maps pretty.
From Stdlib Require Import ZArith Lia Ascii.

Set Warnings "-register-all".
Open Scope string_scope.

(* ===================================================================== *)
(** * Python values *)
(* ===================================================================== *)

Module Py.

(** What [resp.json()] returns: a parsed JSON document.  Objects are Python
    dicts with string keys; numbers are the integers (status codes, follower
    counts, popularity). *)
Inductive json : Type :=
  | JNull
  | JBool (b : bool)
  | JNum (n : Z)
  | JStr (s : string)
  | JList (l : list json)
  | JObj (m : gmap string json).

(** The exceptions the program meets; every one derives from [Exception].
    [ExternalError] stands for the exceptions of the collaborators ([requests],
    [tempfile], [pygame]); it keeps the class name and [str(e)]. *)
Inductive exn : Type :=
  | RuntimeError (msg : string)
  | KeyError (key : string)
  | AttributeError (msg : string)
  | TypeError (msg : string)
  | ExternalError (cls msg : string).

(** [str(e)].  A [KeyError] prints the [repr] of the missing key; every key the
    program subscripts with is a plain identifier, whose [repr] is the key
    between single quotes. *)
Definition exn_str (e : exn) : string :=
  match e with
  | RuntimeError msg => msg
  | KeyError key => "'" ++ key ++ "'"
  | AttributeError msg => msg
  | TypeError msg => msg
  | ExternalError _ msg => msg
  end.

Inductive result (A : Type) : Type :=
  | Return (a : A)
  | Raise (e : exn).
Arguments Return {A} a.
Arguments Raise {A} e.

Definition raises {A} (r : result A) : bool :=
  match r with Return _ => false | Raise _ => true end.

(** Code without side effects that may raise: [x ← c; k] runs [k] on what [c]
    returns and stops at the first exception. *)
#[global] Instance result_ret : MRet result := λ A a, Return a.
#[global] Instance result_bind : MBind result :=
  λ A B k r, match r with Return a => k a | Raise e => Raise e end.

(** Effectful code: a computation over a state [S] that returns or raises.
    State changes made before an exception is raised persist, as in Python. *)
Definition M (S A : Type) : Type := S → result A * S.

Definition ret {S A} (a : A) : M S A := λ s, (Return a, s).
Definition raise {S A} (e : exn) : M S A := λ s, (Raise e, s).
Definition bind {S A B} (c : M S A) (k : A → M S B) : M S B :=
  λ s, match c s with
       | (Return a, s') => k a s'
       | (Raise e, s') => (Raise e, s')
       end.
Definition lift {S A} (r : result A) : M S A := λ s, (r, s).
Definition modify {S} (f : S → S) : M S unit := λ s, (Return tt, f s).
Definition gets {S A} (f : S → A) : M S A := λ s, (Return (f s), s).

(** [try: body except Exception as e: handler(e)] *)
Definition try_except {S A} (body : M S A) (handler : exn → M S A) : M S A :=
  λ s, match body s with
       | (Return a, s') => (Return a, s')
       | (Raise e, s') => handler e s'
       end.

Declare Scope py_scope.
Delimit Scope py_scope with py.
Notation "x <~ c ;; k" := (bind c (λ x, k))
  (at level 100, c at next level, right associativity) : py_scope.
Notation "c ;;; k" := (bind c (λ _, k))
  (at level 100, right associativity) : py_scope.

(** [for x in xs: body(x)], stopping at the first exception. *)
Fixpoint for_each {S A} (xs : list A) (body : A → M S unit) : M S unit :=
  match xs with
  | [] => ret tt
  | x :: xs' => bind (body x) (λ _, for_each xs' body)
  end.

(** [enumerate(xs, start)] *)
Fixpoint enumerate {A} (xs : list A) (start : Z) : list (Z * A) :=
  match xs with
  | [] => []
  | x :: xs' => (start, x) :: enumerate xs' (start + 1)
  end.

(** ** Truthiness, [str], type names *)

(** [bool(v)] *)
Definition truthy (v : json) : bool :=
  match v with
  | JNull => false
  | JBool b => b
  | JNum n => negb (n =? 0)%Z
  | JStr s => negb (String.eqb s "")
  | JList l => match l with [] => false | _ => true end
  | JObj m => negb (bool_decide (m = ∅))
  end.

(** [bool(s)] for what [os.getenv] returns: [None] or a string. *)
Definition env_truthy (o : option string) : bool :=
  match o with
  | None => false
  | Some s => negb (String.eqb s "")
  end.

(** [f"{o}"] for what [os.getenv] returns. *)
Definition env_str (o : option string) : string :=
  match o with
  | None => "None"
  | Some s => s
  end.

(** [type(v).__name__] *)
Definition type_name (v : json) : string :=
  match v with
  | JNull => "NoneType"
  | JBool _ => "bool"
  | JNum _ => "int"
  | JStr _ => "str"
  | JList _ => "list"
  | JObj _ => "dict"
  end.

(** [str(n)] for an int. *)
Definition int_str (n : Z) : string := pretty n.

(** An f-string, kept as the sequence of its literal pieces and of the values
    it interpolates.  [fstring_str] is the text it evaluates to when the
    interpolated values are scalars. *)
Inductive fpart : Type :=
  | FLit (s : string)
  | FVal (v : json).

Definition fstring : Type := list fpart.

Definition scalar_str (v : json) : option string :=
  match v with
  | JNull => Some "None"
  | JBool true => Some "True"
  | JBool false => Some "False"
  | JNum n => Some (int_str n)
  | JStr s => Some s
  | JList _ | JObj _ => None
  end.

Fixpoint fstring_str (f : fstring) : option string :=
  match f with
  | [] => Some ""
  | FLit s :: f' => rest ← fstring_str f'; Some (s ++ rest)
  | FVal v :: f' => s ← scalar_str v; rest ← fstring_str f'; Some (s ++ rest)
  end.

(** ** Operations on parsed JSON *)

(** [v[key]] with a string key. *)
Definition getitem (v : json) (key : string) : result json :=
  match v with
  | JObj m =>
      match m !! key with
      | Some x => Return x
      | None => Raise (KeyError key)
      end
  | JList _ => Raise (TypeError "list indices must be integers or slices, not str")
  | JStr _ => Raise (TypeError "string indices must be integers, not 'str'")
  | _ => Raise (TypeError ("'" ++ type_name v ++ "' object is not subscriptable"))
  end.

(** [v.get(key, dflt)]: only dicts have the method. *)
Definition get (v : json) (key : string) (dflt : json) : result json :=
  match v with
  | JObj m => Return (default dflt (m !! key))
  | _ => Raise (AttributeError ("'" ++ type_name v ++ "' object has no attribute 'get'"))
  end.

Definition chars (s : string) : list json :=
  (λ c, JStr (String c "")) <$> String.list_ascii_of_string s.

(** The elements a [for] loop (or [join]) visits.  A dict yields its keys;
    the program only ever calls [.get] on what it iterates, which fails in the
    same way on every key, so the order of the keys is immaterial here. *)
Definition iter (v : json) : result (list json) :=
  match v with
  | JList l => Return l
  | JStr s => Return (chars s)
  | JObj m => Return (JStr <$> (map_to_list m).*1)
  | _ => Raise (TypeError ("'" ++ type_name v ++ "' object is not iterable"))
  end.

(** [v[:n]] *)
Definition slice_to (n : nat) (v : json) : result json :=
  match v with
  | JList l => Return (JList (take n l))
  | JStr s => Return (JStr (String.substring 0 (Nat.min n (String.length s)) s))
  | JObj _ => Raise (TypeError "unhashable type: 'slice'")
  | _ => Raise (TypeError ("'" ++ type_name v ++ "' object is not subscriptable"))
  end.

(** The strings of a list of values, or the position and the value of the first
    one that is not a string. *)
Fixpoint strings_of (i : nat) (l : list json) : (nat * json) + list string :=
  match l with
  | [] => inr []
  | JStr s :: l' =>
      match strings_of (S i) l' with
      | inr ss => inr (s :: ss)
      | inl bad => inl bad
      end
  | v :: _ => inl (i, v)
  end.

Fixpoint join_strings (sep : string) (ss : list string) : string :=
  match ss with
  | [] => ""
  | [s] => s
  | s :: ss' => s ++ sep ++ join_strings sep ss'
  end.

(** [sep.join(v)] *)
Definition join (sep : string) (v : json) : result string :=
  match iter v with
  | Raise _ => Raise (TypeError "can only join an iterable")
  | Return l =>
      match strings_of 0 l with
      | inr ss => Return (join_strings sep ss)
      | inl (i, bad) =>
          Raise (TypeError ("sequence item " ++ pretty i ++ ": expected str instance, "
                            ++ type_name bad ++ " found"))
      end
  end.

(** [s or dflt] on strings. *)
Definition str_or (s dflt : string) : string :=
  if String.eqb s "" then dflt else s.

(** ** [base64.b64encode] *)

Definition b64_alphabet : string :=
  "ABCDEFGHIJKLMNOPQRSTUVWXYZabcdefghijklmnopqrstuvwxyz0123456789+/".

Definition b64_digit (n : N) : ascii :=
  default "="%char (String.get (N.to_nat n) b64_alphabet).

(** Three bytes give four digits; one or two trailing bytes are padded with
    [=]. *)
Fixpoint b64_bytes (l : list ascii) : string :=
  match l with
  | [] => ""
  | [a] =>
      let x := N_of_ascii a in
      String (b64_digit (N.shiftr x 2))
        (String (b64_digit (N.shiftl (N.land x 3) 4)) "==")
  | [a; b] =>
      let x := N_of_ascii a in
      let y := N_of_ascii b in
      String (b64_digit (N.shiftr x 2))
        (String (b64_digit (N.lor (N.shiftl (N.land x 3) 4) (N.shiftr y 4)))
           (String (b64_digit (N.shiftl (N.land y 15) 2)) "="))
  | a :: b :: c :: rest =>
      let x := N_of_ascii a in
      let y := N_of_ascii b in
      let z := N_of_ascii c in
      String (b64_digit (N.shiftr x 2))
        (String (b64_digit (N.lor (N.shiftl (N.land x 3) 4) (N.shiftr y 4)))
           (String (b64_digit (N.lor (N.shiftl (N.land y 15) 2) (N.shiftr z 6)))
              (String (b64_digit (N.land z 63)) (b64_bytes rest))))
  end.

Definition b64encode (s : string) : string :=
  b64_bytes (String.list_ascii_of_string s).

End Py.

(* ===================================================================== *)
(** * Spotify API helpers *)
(* ===================================================================== *)

Module Spotify.
Import Py.
Local Open Scope py_scope.

Inductive http_method : Type := POST | GET.

(** What [requests.post] / [requests.get] are called with. *)
Record request : Type := {
  req_method : http_method;
  req_url : fstring;
  req_headers : gmap string fstring;
  req_params : gmap string json;
  req_data : gmap string string;
  req_timeout : Z;
}.

(** What they return.  [json_body] is what [resp.json()] parses the body to,
    [None] when the body is not JSON (then [resp.json()] raises). *)
Record response : Type := {
  status_code : Z;
  text : string;
  content : string;
  json_body : option json;
}.

(** The remote side: what each call answers, or the exception it raises
    (connection failure, timeout). *)
Record network : Type := {
  http_post : request → result response;
  http_get : request → result response;
}.

(** The state of the API helpers is the list of requests sent so far. *)
Definition post (net : network) (url : fstring) (headers : gmap string fstring)
    (data : gmap string string) (timeout : Z) : M (list request) response :=
  let r := {| req_method := POST; req_url := url; req_headers := headers;
              req_params := ∅; req_data := data; req_timeout := timeout |} in
  modify (λ sent, (sent ++ [r])%list) ;;; lift (http_post net r).

Definition get (net : network) (url : fstring) (headers : gmap string fstring)
    (params : gmap string json) (timeout : Z) : M (list request) response :=
  let r := {| req_method := GET; req_url := url; req_headers := headers;
              req_params := params; req_data := ∅; req_timeout := timeout |} in
  modify (λ sent, (sent ++ [r])%list) ;;; lift (http_get net r).

(** [resp.json()] *)
Definition resp_json (resp : response) : result json :=
  match json_body resp with
  | Some v => Return v
  | None => Raise (ExternalError "JSONDecodeError" "Expecting value")
  end.

Definition token_url : string := "https://accounts.spotify.com/api/token".

Section Credentials.
(** [CLIENT_ID = os.getenv("CLIENT_ID")], [CLIENT_SECRET] likewise: [None]
    when the variable is unset. *)
Variables CLIENT_ID CLIENT_SECRET : option string.

Definition get_token (net : network) : M (list request) json :=
  if negb (env_truthy CLIENT_ID) || negb (env_truthy CLIENT_SECRET) then
    raise (RuntimeError "Missing CLIENT_ID or CLIENT_SECRET in .env")
  else
    let auth_string := env_str CLIENT_ID ++ ":" ++ env_str CLIENT_SECRET in
    let auth_base64 := b64encode auth_string in
    let url := [FLit token_url] in
    let headers : gmap string fstring :=
      {[ "Authorization" := [FLit "Basic "; FVal (JStr auth_base64)];
         "Content-Type" := [FLit "application/x-www-form-urlencoded"] ]} in
    let data : gmap string string := {[ "grant_type" := "client_credentials" ]} in
    resp <~ post net url headers data 15 ;;
    if negb (status_code resp =? 200)%Z then
      raise (RuntimeError ("Token error [" ++ int_str (status_code resp) ++ "]: "
                           ++ text resp))
    else
      body <~ lift (resp_json resp) ;;
      lift (getitem body "access_token").
End Credentials.

Definition auth_header (token : json) : gmap string fstring :=
  {[ "Authorization" := [FLit "Bearer "; FVal token] ]}.

Definition search_artists (net : network) (token : json) (name : json) (limit : Z)
    : M (list request) json :=
  let url := [FLit "https://api.spotify.com/v1/search"] in
  let params : gmap string json :=
    {[ "q" := name; "type" := JStr "artist"; "limit" := JNum limit ]} in
  resp <~ get net url (auth_header token) params 15 ;;
  if negb (status_code resp =? 200)%Z then
    raise (RuntimeError ("Search error [" ++ int_str (status_code resp) ++ "]: "
                         ++ text resp))
  else
    body <~ lift (resp_json resp) ;;
    artists <~ lift (getitem body "artists") ;;
    lift (getitem artists "items").

Definition get_artist_top_tracks (net : network) (token : json) (artist_id : json)
    (market : string) : M (list request) json :=
  let url := [FLit "https://api.spotify.com/v1/artists/"; FVal artist_id;
              FLit "/top-tracks"] in
  let params : gmap string json := {[ "market" := JStr market ]} in
  resp <~ get net url (auth_header token) params 15 ;;
  if negb (status_code resp =? 200)%Z then
    raise (RuntimeError ("Top tracks error [" ++ int_str (status_code resp) ++ "]: "
                         ++ text resp))
  else
    body <~ lift (resp_json resp) ;;
    lift (getitem body "tracks").

Definition get_artist_albums (net : network) (token : json) (artist_id : json)
    (limit : Z) : M (list request) json :=
  let url := [FLit "https://api.spotify.com/v1/artists/"; FVal artist_id;
              FLit "/albums"] in
  let params : gmap string json :=
    {[ "include_groups" := JStr "album,single,compilation";
       "limit" := JNum limit;
       "market" := JStr "US" ]} in
  resp <~ get net url (auth_header token) params 15 ;;
  if negb (status_code resp =? 200)%Z then
    raise (RuntimeError ("Albums error [" ++ int_str (status_code resp) ++ "]: "
                         ++ text resp))
  else
    body <~ lift (resp_json resp) ;;
    lift (getitem body "items").

(** The default values of the optional parameters. *)
Definition search_artists_default_limit : Z := 5.
Definition get_artist_top_tracks_default_market : string := "US".
Definition get_artist_albums_default_limit : Z := 10.

End Spotify.

(* ===================================================================== *)
(** * Audio preview player *)
(* ===================================================================== *)

Module Preview.
Import Py Spotify.
Local Open Scope py_scope.

(** The fields [__init__] creates. *)
Record PreviewPlayer : Type := {
  initialized : bool;
  current_file : option string;
  is_playing : bool;
}.

Definition PreviewPlayer_init : PreviewPlayer :=
  {| initialized := false; current_file := None; is_playing := false |}.

(** [pygame.mixer]: whether [init] has succeeded, the file [music] has loaded
    and whether it is playing. *)
Record mixer : Type := {
  mixer_ready : bool;
  music_loaded : option string;
  music_busy : bool;
}.

(** Everything a play or stop operation can touch: the player object, the
    audio engine, the temporary files on disk (path to content), the requests
    sent and the modal error dialogs shown (title, message). *)
Record world : Type := {
  player : PreviewPlayer;
  engine : mixer;
  files : gmap string string;
  sent : list request;
  dialogs : list (string * string);
}.

Definition world_init : world :=
  {| player := PreviewPlayer_init;
     engine := {| mixer_ready := false; music_loaded := None; music_busy := false |};
     files := ∅; sent := []; dialogs := [] |}.

Definition set_player (f : PreviewPlayer → PreviewPlayer) (w : world) : world :=
  {| player := f (player w); engine := engine w; files := files w;
     sent := sent w; dialogs := dialogs w |}.
Definition set_engine (f : mixer → mixer) (w : world) : world :=
  {| player := player w; engine := f (engine w); files := files w;
     sent := sent w; dialogs := dialogs w |}.
Definition set_files (f : gmap string string → gmap string string) (w : world) : world :=
  {| player := player w; engine := engine w; files := f (files w);
     sent := sent w; dialogs := dialogs w |}.
Definition set_sent (f : list request → list request) (w : world) : world :=
  {| player := player w; engine := engine w; files := files w;
     sent := f (sent w); dialogs := dialogs w |}.
Definition set_dialogs (f : list (string * string) → list (string * string))
    (w : world) : world :=
  {| player := player w; engine := engine w; files := files w;
     sent := sent w; dialogs := f (dialogs w) |}.

Definition set_initialized (b : bool) (p : PreviewPlayer) : PreviewPlayer :=
  {| initialized := b; current_file := current_file p; is_playing := is_playing p |}.
Definition set_current_file (f : option string) (p : PreviewPlayer) : PreviewPlayer :=
  {| initialized := initialized p; current_file := f; is_playing := is_playing p |}.
Definition set_is_playing (b : bool) (p : PreviewPlayer) : PreviewPlayer :=
  {| initialized := initialized p; current_file := current_file p; is_playing := b |}.

(** What the surroundings answer during one play operation: each call into the
    audio engine and the file system either succeeds ([None]) or raises. *)
Record play_env : Type := {
  net : network;
  mixer_init_outcome : option exn;
  tempfile_outcome : result string;
  write_outcome : option exn;
  flush_outcome : option exn;
  close_outcome : option exn;
  load_outcome : option exn;
  play_outcome : option exn;
}.

Definition outcome {S} (o : option exn) : M S unit :=
  match o with
  | None => ret tt
  | Some e => raise e
  end.

Definition mixer_not_initialized : exn := ExternalError "pygame.error" "mixer not initialized".

(** ** The engine and the file system, as the player calls them *)

(** [pygame.mixer.init()] *)
Definition mixer_init (env : play_env) : M world unit :=
  outcome (mixer_init_outcome env) ;;;
  modify (set_engine (λ m, {| mixer_ready := true; music_loaded := music_loaded m;
                             music_busy := music_busy m |})).

(** [pygame.mixer.music.stop()]: an error before [mixer.init()], otherwise the
    music is halted. *)
Definition music_stop : M world unit :=
  ready <~ gets (λ w, mixer_ready (engine w)) ;;
  if ready then
    modify (set_engine (λ m, {| mixer_ready := mixer_ready m;
                               music_loaded := music_loaded m; music_busy := false |}))
  else raise mixer_not_initialized.

(** [pygame.mixer.music.load(path)]: on success the new file replaces the
    loaded one, which stops. *)
Definition music_load (env : play_env) (path : string) : M world unit :=
  ready <~ gets (λ w, mixer_ready (engine w)) ;;
  if ready then
    outcome (load_outcome env) ;;;
    modify (set_engine (λ m, {| mixer_ready := mixer_ready m;
                               music_loaded := Some path; music_busy := false |}))
  else raise mixer_not_initialized.

(** [pygame.mixer.music.play()] *)
Definition music_play (env : play_env) : M world unit :=
  ready <~ gets (λ w, mixer_ready (engine w)) ;;
  if ready then
    outcome (play_outcome env) ;;;
    modify (set_engine (λ m, {| mixer_ready := mixer_ready m;
                               music_loaded := music_loaded m; music_busy := true |}))
  else raise mixer_not_initialized.

(** [tempfile.NamedTemporaryFile(delete=False, suffix=".mp3")]: a new, empty
    file under the name the system picked. *)
Definition NamedTemporaryFile (env : play_env) : M world string :=
  name <~ lift (tempfile_outcome env) ;;
  modify (set_files (λ fs, <[name := ""]> fs)) ;;;
  ret name.

(** [tmp.write(data); tmp.flush(); tmp.close()] *)
Definition tmp_write (env : play_env) (name data : string) : M world unit :=
  outcome (write_outcome env) ;;;
  modify (set_files (λ fs, <[name := data]> fs)).
Definition tmp_flush (env : play_env) : M world unit := outcome (flush_outcome env).
Definition tmp_close (env : play_env) : M world unit := outcome (close_outcome env).

(** [requests.get(url, timeout=20)], run against the requests of the world. *)
Definition download (env : play_env) (url : json) : M world response :=
  λ w, let '(r, sent') := Spotify.get (net env) [FVal url] ∅ ∅ 20 (sent w) in
       (r, set_sent (λ _, sent') w).

(** [messagebox.showerror(title, message)] *)
Definition showerror (title message : string) : M world unit :=
  modify (set_dialogs (λ ds, (ds ++ [(title, message)])%list)).

(** [threading.Thread(target=worker, daemon=True).start()].  The worker is run
    to completion at once; an exception that escapes it ends the thread and is
    not seen by the code that started it. *)
Definition Thread_start (target : M world unit) : M world unit :=
  λ w, (Return tt, snd (target w)).

(** ** The methods of [PreviewPlayer] *)

Definition _ensure_init (env : play_env) : M world unit :=
  init <~ gets (λ w, initialized (player w)) ;;
  if negb init then
    mixer_init env ;;;
    modify (set_player (set_initialized true))
  else ret tt.

Definition stop : M world unit :=
  init <~ gets (λ w, initialized (player w)) ;;
  if negb init then ret tt
  else
    music_stop ;;;
    modify (set_player (set_is_playing false)).

(** The body of the [try] in [play_from_url]'s worker.  [self.current_file] is
    [tmp.name] when it is loaded. *)
Definition worker_body (env : play_env) (url : json) : M world unit :=
  _ensure_init env ;;;
  r <~ download env url ;;
  if negb (status_code r =? 200)%Z then
    raise (RuntimeError ("Preview download error [" ++ int_str (status_code r) ++ "]"))
  else
    tmp <~ NamedTemporaryFile env ;;
    tmp_write env tmp (content r) ;;;
    tmp_flush env ;;;
    tmp_close env ;;;
    modify (set_player (set_current_file (Some tmp))) ;;;
    music_load env tmp ;;;
    music_play env ;;;
    modify (set_player (set_is_playing true)).

(** The [except Exception as e] clause. *)
Definition worker_handler (on_error : option (string → M world unit)) (e : exn)
    : M world unit :=
  modify (set_player (set_is_playing false)) ;;;
  match on_error with
  | Some callback => callback (exn_str e)
  | None => ret tt
  end.

Definition worker (env : play_env) (url : json)
    (on_error : option (string → M world unit)) : M world unit :=
  try_except (worker_body env url) (worker_handler on_error).

Definition play_from_url (env : play_env) (url : json)
    (on_error : option (string → M world unit)) : M world unit :=
  Thread_start (worker env url on_error).

End Preview.

(* ===================================================================== *)
(** * The application window *)
(* ===================================================================== *)

Module App.
Import Py Spotify Preview.
Local Open Scope Z_scope.
Local Open Scope py_scope.

(** ** Widgets *)

Inductive button_state : Type := normal | disabled.

(** The closures the buttons are created with:
    [lambda a=a: self._load_artist(a)],
    [lambda u=url: webbrowser.open(u) if u else None] and
    [lambda p=preview: self._safe_play_preview(p)]. *)
Inductive command : Type :=
  | CmdLoadArtist (a : json)
  | CmdOpenUrl (u : json)
  | CmdPlayPreview (p : json).

(** A widget, and for a frame the widgets gridded in it with their row and
    column, in creation order. *)
Inductive widget : Type :=
  | CTkLabel (text : fstring) (text_color : option string)
  | CTkButton (text : string) (state : button_state) (cmd : option command)
  | CTkFrame (children : list (Z * Z * widget)).

Definition placed : Type := Z * Z * widget.

(** [w.grid(row=r, column=c)] for a widget [w] created in the container whose
    children are the state. *)
Definition grid (r c : Z) (w : widget) : M (list placed) unit :=
  modify (λ cs, (cs ++ [(r, c, w)])%list).

(** [for child in parent.winfo_children(): child.destroy()] *)
Definition destroy_children : M (list placed) unit := modify (λ _, []).

Definition _clear_results : M (list placed) unit := destroy_children.

(** ** Artist search results *)

(** One turn of the loop of [_render_artist_choices].  The lookups come first
    and may raise; once they have succeeded the row frame, its label and its
    button are created and gridded, and nothing can fail any more. *)
Definition artist_row_widget (a : json) : result widget :=
  name ← Py.get a "name" (JStr "Unknown");
  followers_obj ← Py.get a "followers" (JObj ∅);
  followers ← Py.get followers_obj "total" (JNum 0);
  all_genres ← Py.get a "genres" (JList []);
  first_genres ← slice_to 3%nat all_genres;
  joined ← join ", " first_genres;
  let genres := str_or joined "N/A" in
  let info := CTkLabel [FVal name; FLit "  ·  "; FVal followers;
                        FLit " followers  ·  "; FVal (JStr genres)] None in
  let select_btn := CTkButton "Open" normal (Some (CmdLoadArtist a)) in
  mret (CTkFrame [(0, 0, info); (0, 1, select_btn)]).

Definition artist_row (i : Z) (a : json) : M (list placed) unit :=
  row <~ lift (artist_row_widget a) ;;
  grid i 0 row.

Definition no_artists_label : widget :=
  CTkLabel [FLit "No artists found."] (Some "orange").

Definition select_artist_label : widget :=
  CTkLabel [FLit "Select an artist:"] None.

Definition _render_artist_choices (artists : json) : M (list placed) unit :=
  _clear_results ;;;
  if negb (truthy artists) then
    grid 0 0 no_artists_label
  else
    grid 0 0 select_artist_label ;;;
    items <~ lift (iter artists) ;;
    for_each (enumerate items 1) (λ ia, artist_row ia.1 ia.2).

(** ** Top tracks *)

Definition track_row_widget (i : Z) (t : json) : result widget :=
  name ← Py.get t "name" (JStr "Unknown");
  urls ← Py.get t "external_urls" (JObj ∅);
  url ← Py.get urls "spotify" (JStr "");
  preview ← Py.get t "preview_url" JNull;
  let lbl := CTkLabel [FVal (JNum i); FLit ". "; FVal name] None in
  let open_btn := CTkButton "Open" normal (Some (CmdOpenUrl url)) in
  let play_btn :=
    if truthy preview then
      CTkButton "▶ Preview" normal (Some (CmdPlayPreview preview))
    else
      CTkButton "No Preview" disabled None in
  mret (CTkFrame [(0, 0, lbl); (0, 1, open_btn); (0, 2, play_btn)]).

Definition track_row (i : Z) (t : json) : M (list placed) unit :=
  row <~ lift (track_row_widget i t) ;;
  grid i 0 row.

Definition no_tracks_label : widget :=
  CTkLabel [FLit "No tracks found."] (Some "orange").

Definition _populate_tracks (tracks : json) : M (list placed) unit :=
  destroy_children ;;;
  if negb (truthy tracks) then
    grid 0 0 no_tracks_label
  else
    items <~ lift (iter tracks) ;;
    for_each (enumerate items 1) (λ it, track_row it.1 it.2).

(** ** Albums *)

Definition album_row_widget (i : Z) (a : json) : result widget :=
  name ← Py.get a "name" (JStr "Unknown");
  date ← Py.get a "release_date" (JStr "N/A");
  urls ← Py.get a "external_urls" (JObj ∅);
  url ← Py.get urls "spotify" (JStr "");
  let lbl := CTkLabel [FVal (JNum i); FLit ". "; FVal name; FLit "  (";
                       FVal date; FLit ")"] None in
  let open_btn := CTkButton "Open" normal (Some (CmdOpenUrl url)) in
  mret (CTkFrame [(0, 0, lbl); (0, 1, open_btn)]).

Definition album_row (i : Z) (a : json) : M (list placed) unit :=
  row <~ lift (album_row_widget i a) ;;
  grid i 0 row.

Definition no_albums_label : widget :=
  CTkLabel [FLit "No albums found."] (Some "orange").

Definition _populate_albums (albums : json) : M (list placed) unit :=
  destroy_children ;;;
  if negb (truthy albums) then
    grid 0 0 no_albums_label
  else
    items <~ lift (iter albums) ;;
    for_each (enumerate items 1) (λ ia, album_row ia.1 ia.2).

(** ** The background workers of the two sections

    A worker ends with one [self.after(0, ...)]: the call it hands over to the
    UI thread.  The failure lambdas read [e] when they run. *)
Inductive ui_call : Type :=
  | PopulateTracks (tracks : json)
  | TopTracksFailed (e : exn)
  | PopulateAlbums (albums : json)
  | AlbumsFailed (e : exn).

Definition top_tracks_worker (net : network) (token artist_id : json)
    : M (list request) ui_call :=
  try_except
    (response_tracks <~ get_artist_top_tracks net token artist_id
                          get_artist_top_tracks_default_market ;;
     tracks <~ lift (slice_to 10%nat response_tracks) ;;
     ret (PopulateTracks tracks))
    (λ e, ret (TopTracksFailed e)).

Definition albums_worker (net : network) (token artist_id : json)
    : M (list request) ui_call :=
  try_except
    (albums <~ get_artist_albums net token artist_id 12 ;;
     ret (PopulateAlbums albums))
    (λ e, ret (AlbumsFailed e)).

(** What each section's list frame holds while its worker runs. *)
Definition loading_top_tracks : list placed :=
  [(0, 0, CTkLabel [FLit "Loading top tracks…"] None)].
Definition loading_albums : list placed :=
  [(0, 0, CTkLabel [FLit "Loading albums…"] None)].

(** The call, run on the UI thread against the children of the list frame.
    [loading.destroy()] removes the frame's first child, the loading label. *)
Definition run_ui_call (c : ui_call) : M (list placed) unit :=
  match c with
  | PopulateTracks tracks => _populate_tracks tracks
  | TopTracksFailed e =>
      modify (λ cs, tail cs) ;;;
      grid 0 0 (CTkLabel [FLit "Failed to load top tracks: "; FVal (JStr (exn_str e))]
                  (Some "red"))
  | PopulateAlbums albums => _populate_albums albums
  | AlbumsFailed e =>
      modify (λ cs, tail cs) ;;;
      grid 0 0 (CTkLabel [FLit "Failed to load albums: "; FVal (JStr (exn_str e))]
                  (Some "red"))
  end.

(** The list frame of the top-tracks section once the worker's call has run:
    whether the call raised, and the frame's children. *)
Definition _render_top_tracks_section (net : network) (token artist_id : json)
    : M (list request) (result unit * list placed) :=
  call <~ top_tracks_worker net token artist_id ;;
  ret (run_ui_call call loading_top_tracks).

Definition _render_albums_section (net : network) (token artist_id : json)
    : M (list request) (result unit * list placed) :=
  call <~ albums_worker net token artist_id ;;
  ret (run_ui_call call loading_albums).

(** ** Preview buttons *)

Section PreviewButtons.
(** [traceback.format_exc()] for the exception being handled. *)
Variable format_exc : exn → string.

Definition _safe_play_preview (env : play_env) (preview_url : json) : M world unit :=
  try_except
    (play_from_url env preview_url (Some (λ msg, showerror "Preview Error" msg)))
    (λ e, showerror "Preview Error" (format_exc e)).

Definition on_stop_preview : M world unit := stop.

(** Clicking a widget of a track row, as far as the player is concerned: a
    disabled button ignores the click, a preview button runs its command; the
    other commands act on the browser and on the widget tree only. *)
Definition click (env : play_env) (w : widget) : M world unit :=
  match w with
  | CTkButton _ normal (Some (CmdPlayPreview p)) => _safe_play_preview env p
  | _ => ret tt
  end.
End PreviewButtons.

End App.

(* ===================================================================== *)
(** * The window: searching and opening an artist *)
(* ===================================================================== *)

Module Window.
Import Py Spotify Preview App.
Local Open Scope Z_scope.
Local Open Scope py_scope.





(** The modal boxes of [tkinter.messagebox]. *)
Inductive messagebox : Type :=
  | showinfo_box (title message : string)
  | showerror_box (title message : string).

(** The state of the window that searching and opening an artist work on:
    [self.token] and [self.current_artist] ([JNull] is [None]), the children
    of [self.scroll], the requests sent and the boxes shown. *)
Record SpotifyApp : Type := {
  token : json;
  current_artist : json;
  scroll : list placed;
  requests : list request;
  boxes : list messagebox;
}.

Definition set_token (t : json) (a : SpotifyApp) : SpotifyApp :=
  {| token := t; current_artist := current_artist a; scroll := scroll a;
     requests := requests a; boxes := boxes a |}.
Definition set_current_artist (v : json) (a : SpotifyApp) : SpotifyApp :=
  {| token := token a; current_artist := v; scroll := scroll a;
     requests := requests a; boxes := boxes a |}.
Definition set_scroll (cs : list placed) (a : SpotifyApp) : SpotifyApp :=
  {| token := token a; current_artist := current_artist a; scroll := cs;
     requests := requests a; boxes := boxes a |}.
Definition set_requests (rs : list request) (a : SpotifyApp) : SpotifyApp :=
  {| token := token a; current_artist := current_artist a; scroll := scroll a;
     requests := rs; boxes := boxes a |}.
Definition add_box (b : messagebox) (a : SpotifyApp) : SpotifyApp :=
  {| token := token a; current_artist := current_artist a; scroll := scroll a;
     requests := requests a; boxes := (boxes a ++ [b])%list |}.

(** An API helper, run against the requests of the window. *)
Definition with_requests {A} (c : M (list request) A) : M SpotifyApp A :=
  λ a, let '(r, sent') := c (requests a) in (r, set_requests sent' a).

(** Widget code, run against the children of [self.scroll]. *)
Definition with_scroll {A} (c : M (list placed) A) : M SpotifyApp A :=
  λ a, let '(r, cs) := c (scroll a) in (r, set_scroll cs a).



Definition showerror (title message : string) : M SpotifyApp unit :=
  modify (add_box (showerror_box title message)).

Section Window.
Variables CLIENT_ID CLIENT_SECRET : option string.
Variable net : network.

(** The window before [__init__] has filled it. *)
Definition blank_window : SpotifyApp :=
  {| token := JNull; current_artist := JNull; scroll := [];
     requests := []; boxes := [] |}.

Definition _build_content : M SpotifyApp unit :=
  with_scroll _clear_results ;;;
  with_scroll (grid 0 0 (CTkLabel [FLit "Search for an artist to see results here."]
                           None)).

(** [__init__], from the creation of the content area on; the sidebar holds
    static controls only. *)
Definition SpotifyApp__init__ : M SpotifyApp unit :=
  _build_content ;;;
  try_except
    (t <~ with_requests (get_token CLIENT_ID CLIENT_SECRET net) ;;
     modify (set_token t))
    (λ e, showerror "Auth Error" (exn_str e)).



(** The header of the artist page.  The frame is gridded before its content
    is computed, so a failing lookup leaves it empty. *)
Definition artist_header (artist_obj : json) : result widget :=
  name ← Py.get artist_obj "name" (JStr "Unknown");
  all_genres ← Py.get artist_obj "genres" (JList []);
  joined ← join ", " all_genres;
  let genres := str_or joined "N/A" in
  popularity ← Py.get artist_obj "popularity" (JStr "N/A");
  urls ← Py.get artist_obj "external_urls" (JObj ∅);
  url ← Py.get urls "spotify" (JStr "");
  let title := CTkLabel [FLit "🎤 "; FVal name] None in
  let meta := CTkLabel [FLit "🔥 Popularity: "; FVal popularity;
                        FLit "   ·   🎶 Genres: "; FVal (JStr genres)] None in
  let open_btn := CTkButton "Open Artist on Spotify" normal (Some (CmdOpenUrl url)) in
  mret (CTkFrame [(0, 0, title); (1, 0, meta); (0, 1, open_btn)]).

(** A section of the artist page once its worker's call has run: the title
    and the list frame. *)
Definition top_tracks_section (artist_id : json) : M SpotifyApp unit :=
  tok <~ gets token ;;
  outcome <~ with_requests (_render_top_tracks_section net tok artist_id) ;;
  with_scroll (grid 2 0 (CTkFrame [(0, 0, CTkLabel [FLit "🎵 Top Tracks"] None);
                                   (1, 0, CTkFrame outcome.2)])).

Definition albums_section (artist_id : json) : M SpotifyApp unit :=
  tok <~ gets token ;;
  outcome <~ with_requests (_render_albums_section net tok artist_id) ;;
  with_scroll (grid 3 0 (CTkFrame [(0, 0, CTkLabel [FLit "📀 Albums / Releases"] None);
                                   (1, 0, CTkFrame outcome.2)])).

Definition _load_artist (artist_obj : json) : M SpotifyApp unit :=
  modify (set_current_artist artist_obj) ;;;
  with_scroll _clear_results ;;;
  match artist_header artist_obj with
  | Raise e => with_scroll (grid 0 0 (CTkFrame [])) ;;; raise e
  | Return header =>
      with_scroll (grid 0 0 header) ;;;
      with_scroll (grid 1 0 (CTkLabel [FLit ""] None)) ;;;
      top_id <~ lift (getitem artist_obj "id") ;;
      top_tracks_section top_id ;;;
      albums_id <~ lift (getitem artist_obj "id") ;;
      albums_section albums_id
  end.
End Window.

End Window.


(* ===================================================================== *)
(** * Vocabulary of the properties *)
(* ===================================================================== *)

Import Py Spotify Preview App.
Import Window.
Local Open Scope Z_scope.

(** The request [get_token] posts. *)
Definition token_request (CLIENT_ID CLIENT_SECRET : option string) : request :=
  {| req_method := POST;
     req_url := [FLit token_url];
     req_headers :=
       {[ "Authorization" :=
            [FLit "Basic ";
             FVal (JStr (b64encode (env_str CLIENT_ID ++ ":" ++ env_str CLIENT_SECRET)))];
          "Content-Type" := [FLit "application/x-www-form-urlencoded"] ]};
     req_params := ∅;
     req_data := {[ "grant_type" := "client_credentials" ]};
     req_timeout := 15 |}.

(** The request [get_artist_top_tracks] sends. *)
Definition top_tracks_request (token artist_id : json) (market : string) : request :=
  {| req_method := GET;
     req_url := [FLit "https://api.spotify.com/v1/artists/"; FVal artist_id;
                 FLit "/top-tracks"];
     req_headers := auth_header token;
     req_params := {[ "market" := JStr market ]};
     req_data := ∅;
     req_timeout := 15 |}.

(** The request [get_artist_albums] sends. *)
Definition albums_request (token artist_id : json) (limit : Z) : request :=
  {| req_method := GET;
     req_url := [FLit "https://api.spotify.com/v1/artists/"; FVal artist_id;
                 FLit "/albums"];
     req_headers := auth_header token;
     req_params := {[ "include_groups" := JStr "album,single,compilation";
                      "limit" := JNum limit;
                      "market" := JStr "US" ]};
     req_data := ∅;
     req_timeout := 15 |}.

(** A remote side that answers every request with [resp]. *)
Definition constant_network (resp : response) : network :=
  {| http_post := λ _, Return resp; http_get := λ _, Return resp |}.

(** A remote side that cannot be reached. *)
Definition unreachable_network : network :=
  {| http_post := λ _, Raise (ExternalError "ConnectionError" "connection refused");
     http_get := λ _, Raise (ExternalError "ConnectionError" "connection refused") |}.

Definition json_response (status : Z) (body : string) (parsed : option json) : response :=
  {| status_code := status; text := body; content := body; json_body := parsed |}.

(** The rows a loop over [enumerate(items, start)] has gridded when it ends:
    one per item, in order, up to the first item whose row raises. *)
Fixpoint rows_from (row_widget : Z → json → result widget) (start : Z)
    (items : list json) : list placed :=
  match items with
  | [] => []
  | x :: items' =>
      match row_widget start x with
      | Return w => (start, 0, w) :: rows_from row_widget (start + 1) items'
      | Raise _ => []
      end
  end.

(** An artist object whose fields, where present, have the types of the
    catalog: [followers] is an object and [genres] a list of strings. *)
Definition artist_fields_ok (m : gmap string json) : Prop :=
  (∀ v, m !! "followers" = Some v → ∃ f : gmap string json, v = JObj f)
  ∧ (∀ v, m !! "genres" = Some v → ∃ gs : list string, v = JList (JStr <$> gs)).

Definition artist_ok (a : json) : Prop :=
  ∃ m : gmap string json, a = JObj m ∧ artist_fields_ok m.

(** The follower count and the genres of an artist object. *)
Definition followers_total (m : gmap string json) : json :=
  match m !! "followers" with
  | Some (JObj f) => default (JNum 0) (f !! "total")
  | _ => JNum 0
  end.

Definition genre_names (m : gmap string json) : list string :=
  match m !! "genres" with
  | Some (JList gs) => omap (λ v, match v with JStr s => Some s | _ => None end) gs
  | _ => []
  end.

(** The row of an artist: the info label and the enabled [Open] button that
    selects the artist. *)
Definition artist_frame (a name followers : json) (genres : string) : widget :=
  CTkFrame
    [(0, 0, CTkLabel [FVal name; FLit "  ·  "; FVal followers;
                      FLit " followers  ·  "; FVal (JStr genres)] None);
     (0, 1, CTkButton "Open" normal (Some (CmdLoadArtist a)))].

(** A track object whose [external_urls], where present, is an object. *)
Definition track_fields_ok (m : gmap string json) : Prop :=
  ∀ v, m !! "external_urls" = Some v → ∃ u : gmap string json, v = JObj u.

Definition track_ok (t : json) : Prop :=
  ∃ m : gmap string json, t = JObj m ∧ track_fields_ok m.

Definition track_url (m : gmap string json) : json :=
  match m !! "external_urls" with
  | Some (JObj u) => default (JStr "") (u !! "spotify")
  | _ => JStr ""
  end.

(** The row of a track, given its playback control. *)
Definition track_frame (i : Z) (m : gmap string json) (play_btn : widget) : widget :=
  CTkFrame
    [(0, 0, CTkLabel [FVal (JNum i); FLit ". ";
                      FVal (default (JStr "Unknown") (m !! "name"))] None);
     (0, 1, CTkButton "Open" normal (Some (CmdOpenUrl (track_url m))));
     (0, 2, play_btn)].

(** Sample catalog objects: a complete artist, an artist with nothing but a
    name, a track with a preview, one without and one whose preview URL is the
    empty string. *)
Definition adele_fields : gmap string json :=
  {[ "id" := JStr "4dpARuHxo51G3z768sgnrY";
     "name" := JStr "Adele";
     "followers" := JObj {[ "total" := JNum 100 ]};
     "genres" := JList [JStr "british soul"; JStr "pop"; JStr "pop soul"; JStr "uk pop"] ]}.

Definition adele_roberts_fields : gmap string json :=
  {[ "name" := JStr "Adele Roberts" ]}.

Definition hello_fields : gmap string json :=
  {[ "name" := JStr "Hello";
     "external_urls" := JObj {[ "spotify" := JStr "https://open.spotify.com/track/1" ]};
     "preview_url" := JStr "https://p.scdn.co/mp3-preview/1" ]}.

Definition skyfall_fields : gmap string json :=
  {[ "name" := JStr "Skyfall"; "preview_url" := JNull ]}.

Definition easy_fields : gmap string json :=
  {[ "name" := JStr "Easy On Me"; "preview_url" := JStr "" ]}.

(** A top-tracks response of twelve tracks. *)
Definition twelve_tracks : list json :=
  [JObj hello_fields; JObj skyfall_fields; JObj easy_fields]
  ++ replicate 9 (JObj hello_fields).

Definition twelve_tracks_response : response :=
  json_response 200 "{...}" (Some (JObj {[ "tracks" := JList twelve_tracks ]})).

(** The request [play_from_url] downloads the preview with. *)
Definition preview_request (url : json) : request :=
  {| req_method := GET; req_url := [FVal url]; req_headers := ∅;
     req_params := ∅; req_data := ∅; req_timeout := 20 |}.

(** A computation that leaves a component of the world as it found it,
    whether it returns or raises. *)
Definition keeps {A B : Type} (component : world → B) (c : M world A) : Prop :=
  ∀ w, component (snd (c w)) = component w.

(** The two flags that say whether the mixer is initialised. *)
Definition init_flags (w : world) : bool * bool :=
  (initialized (player w), mixer_ready (engine w)).

(** The player and the engine agree: the player only believes the mixer to be
    initialised when it is. *)
Definition engine_linked (w : world) : Prop :=
  initialized (player w) = true → mixer_ready (engine w) = true.

(** The worlds the application can be in: it starts from [world_init] and
    changes it by stopping and by starting previews. *)
Inductive reachable (format_exc : exn → string) : world → Prop :=
  | reach_init : reachable format_exc world_init
  | reach_stop w : reachable format_exc w → reachable format_exc (snd (stop w))
  | reach_play env url w :
      reachable format_exc w →
      reachable format_exc (snd (_safe_play_preview format_exc env url w)).

(** Surroundings in which the preview download answers 404. *)
Definition not_found_env : play_env :=
  {| net := constant_network (json_response 404 "Not Found" None);
     mixer_init_outcome := None;
     tempfile_outcome := Return "/tmp/tmpd4e5f6.mp3";
     write_outcome := None; flush_outcome := None; close_outcome := None;
     load_outcome := None; play_outcome := None |}.

(** A world in which a preview is playing. *)
Definition playing_world : world :=
  {| player := {| initialized := true; current_file := Some "/tmp/tmpa1b2c3.mp3";
                  is_playing := true |};
     engine := {| mixer_ready := true; music_loaded := Some "/tmp/tmpa1b2c3.mp3";
                  music_busy := true |};
     files := {[ "/tmp/tmpa1b2c3.mp3" := "ID3" ]};
     sent := []; dialogs := [] |}.

(** Surroundings in which everything works, serving [resp] as the download. *)
Definition working_env (resp : response) (tmp : string) : play_env :=
  {| net := constant_network resp;
     mixer_init_outcome := None;
     tempfile_outcome := Return tmp;
     write_outcome := None; flush_outcome := None; close_outcome := None;
     load_outcome := None; play_outcome := None |}.

(** The request [search_artists] sends. *)
Definition search_request (token name : json) (limit : Z) : request :=
  {| req_method := GET;
     req_url := [FLit "https://api.spotify.com/v1/search"];
     req_headers := auth_header token;
     req_params := {[ "q" := name; "type" := JStr "artist"; "limit" := JNum limit ]};
     req_data := ∅;
     req_timeout := 15 |}.

(** An album object whose [external_urls], where present, is an object. *)
Definition album_ok (a : json) : Prop :=
  ∃ m : gmap string json, a = JObj m ∧ track_fields_ok m.

(** The row of an album. *)
Definition album_frame (i : Z) (m : gmap string json) : widget :=
  CTkFrame
    [(0, 0, CTkLabel [FVal (JNum i); FLit ". ";
                      FVal (default (JStr "Unknown") (m !! "name")); FLit "  (";
                      FVal (default (JStr "N/A") (m !! "release_date")); FLit ")"] None);
     (0, 1, CTkButton "Open" normal (Some (CmdOpenUrl (track_url m))))].

(** An artist object whose fields, where present, have the types the artist
    page needs: [genres] a list of strings and [external_urls] an object. *)
Definition artist_page_ok (m : gmap string json) : Prop :=
  (∀ v, m !! "genres" = Some v → ∃ gs : list string, v = JList (JStr <$> gs))
  ∧ track_fields_ok m.

(** The header of the page of an artist. *)
Definition artist_header_frame (m : gmap string json) : widget :=
  CTkFrame
    [(0, 0, CTkLabel [FLit "🎤 "; FVal (default (JStr "Unknown") (m !! "name"))] None);
     (1, 0, CTkLabel [FLit "🔥 Popularity: ";
                      FVal (default (JStr "N/A") (m !! "popularity"));
                      FLit "   ·   🎶 Genres: ";
                      FVal (JStr (str_or (join_strings ", " (genre_names m)) "N/A"))]
              None);
     (0, 1, CTkButton "Open Artist on Spotify" normal (Some (CmdOpenUrl (track_url m))))].

(** The label an empty line of the page is made of. *)
Definition separator : widget := CTkLabel [FLit ""] None.


(** The tip the window opens with. *)
Definition tip_label : widget :=
  CTkLabel [FLit "Search for an artist to see results here."] None.

(** The same surroundings, with another answer of [pygame.mixer.init()]. *)
Definition with_mixer_init (o : option exn) (env : play_env) : play_env :=
  {| net := net env; mixer_init_outcome := o;
     tempfile_outcome := tempfile_outcome env;
     write_outcome := write_outcome env; flush_outcome := flush_outcome env;
     close_outcome := close_outcome env;
     load_outcome := load_outcome env; play_outcome := play_outcome env |}.

(** Surroundings in which nothing fails after the mixer is set up and the
    download is answered with status 200. *)
Definition env_works (env : play_env) (url : json) (r : response) (tmp : string) : Prop :=
  http_get (net env) (preview_request url) = Return r
  ∧ status_code r = 200
  ∧ tempfile_outcome env = Return tmp
  ∧ write_outcome env = None ∧ flush_outcome env = None ∧ close_outcome env = None
  ∧ load_outcome env = None ∧ play_outcome env = None.

(** A window whose token was acquired, showing the tip. *)
Definition ready_window : SpotifyApp :=
  {| token := JStr "BQD"; current_artist := JNull; scroll := [(0, 0, tip_label)];
     requests := []; boxes := [] |}.

(** A search answer with the two sample artists, and a catalog that serves it
    to every request. *)
Definition adele_search_response : response :=
  json_response 200 "{...}"
    (Some (JObj {[ "artists" :=
                     JObj {[ "items" := JList [JObj adele_fields;
                                               JObj adele_roberts_fields] ]} ]})).

(** An albums answer of thirteen albums. *)
Definition thirteen_albums : list json :=
  replicate 13 (JObj {[ "name" := JStr "25"; "release_date" := JStr "2015-11-20" ]}).

Definition thirteen_albums_response : response :=
  json_response 200 "{...}" (Some (JObj {[ "items" := JList thirteen_albums ]})).

(** A catalog that answers the requests carrying a [limit] (the albums and
    the search) with [resp] and cannot be reached for the others. *)
Definition limit_only_network (resp : response) : network :=
  {| http_post := λ _, Raise (ExternalError "ConnectionError" "connection refused");
     http_get := λ r,
       match req_params r !! "limit" with
       | Some _ => Return resp
       | None => Raise (ExternalError "ConnectionError" "connection refused")
       end |}.

(** The world once [_ensure_init] has returned. *)
Definition after_init (w : world) : world :=
  if initialized (player w) then w
  else set_player (set_initialized true)
         (set_engine (λ m, {| mixer_ready := true; music_loaded := music_loaded m;
                              music_busy := music_busy m |}) w).

(** The world once the preview downloaded as [r] plays from the file [tmp]. *)
Definition playing (url : json) (r : response) (tmp : string) (w : world) : world :=
  {| player := {| initialized := true; current_file := Some tmp; is_playing := true |};
     engine := {| mixer_ready := true; music_loaded := Some tmp; music_busy := true |};
     files := <[tmp := content r]> (files w);
     sent := (sent w ++ [preview_request url])%list;
     dialogs := dialogs w |}.

(** A computation that removes no file. *)
Definition removes_no_file {A : Type} (c : M world A) : Prop :=
  ∀ w, dom (files w) ⊆ dom (files (snd (c w))).

(** Two previews, served to surroundings that work. *)
Definition first_preview : response := json_response 200 "ID3-one" None.
Definition second_preview : response := json_response 200 "ID3-two" None.

(* ===================================================================== *)
(** * Token acquisition *)
(* ===================================================================== *)

Lemma env_truthy_false (o : option string) :
  env_truthy o = false ↔ o = None ∨ o = Some "".
Proof.
  destruct o as [s|]; simpl.
  - rewrite negb_false_iff, String.eqb_eq. split.
    + intros ->. by right.
    + intros [?|[= ->]]; done.
  - split; [by left | done].
Qed.

(** The request is sent whenever both credentials are present, and it is the
    only one. *)
Lemma get_token_sends (CLIENT_ID CLIENT_SECRET : option string) net sent :
  env_truthy CLIENT_ID = true → env_truthy CLIENT_SECRET = true →
  snd (get_token CLIENT_ID CLIENT_SECRET net sent)
  = (sent ++ [token_request CLIENT_ID CLIENT_SECRET])%list.
Proof.
  intros Hid Hsec. unfold get_token. rewrite Hid, Hsec. simpl.
  unfold post, bind, modify, lift. fold (token_request CLIENT_ID CLIENT_SECRET).
  destruct (http_post net _) as [resp|e]; [|done].
  destruct (negb _); [done|].
  destruct (resp_json resp) as [body|e]; [|done].
  by destruct (getitem body "access_token").
Qed.

(** C1. Whenever the client identifier or the client secret is missing (unset
    or empty), [get_token] raises the configuration error, the [RuntimeError]
    "Missing CLIENT_ID or CLIENT_SECRET in .env", on the credential check alone:
    whatever the remote side would answer, no request is sent. *)
Theorem get_token_missing_credentials
    (CLIENT_ID CLIENT_SECRET : option string) (net : network) (sent : list request) :
  CLIENT_ID = None ∨ CLIENT_ID = Some "" ∨
  CLIENT_SECRET = None ∨ CLIENT_SECRET = Some "" →
  get_token CLIENT_ID CLIENT_SECRET net sent
  = (Raise (RuntimeError "Missing CLIENT_ID or CLIENT_SECRET in .env"), sent).
Proof.
  intros H. unfold get_token.
  assert (env_truthy CLIENT_ID = false ∨ env_truthy CLIENT_SECRET = false) as [->| ->].
  { rewrite !env_truthy_false. tauto. }
  - done.
  - by rewrite orb_true_r.
Qed.

Lemma get_token_missing_credentials_witness :
  get_token None (Some "s3cret") unreachable_network []
  = (Raise (RuntimeError "Missing CLIENT_ID or CLIENT_SECRET in .env"), []).
Proof.
  apply (get_token_missing_credentials None (Some "s3cret") unreachable_network []).
  left. reflexivity.
Defined.

(** C2. With both credentials present, a token response whose status is not 200
    makes [get_token] raise the auth error, a [RuntimeError] whose message holds
    the status code and the body text; a 200 response makes it return the
    [access_token] entry of the JSON body. *)
Theorem get_token_response
    (CLIENT_ID CLIENT_SECRET : option string) (net : network) (sent : list request)
    (resp : response) :
  env_truthy CLIENT_ID = true → env_truthy CLIENT_SECRET = true →
  http_post net (token_request CLIENT_ID CLIENT_SECRET) = Return resp →
  (status_code resp ≠ 200 →
     fst (get_token CLIENT_ID CLIENT_SECRET net sent)
     = Raise (RuntimeError ("Token error [" ++ int_str (status_code resp) ++ "]: "
                            ++ text resp)))
  ∧ (status_code resp = 200 →
     ∀ (body : gmap string json) (access_token : json),
       json_body resp = Some (JObj body) →
       body !! "access_token" = Some access_token →
       fst (get_token CLIENT_ID CLIENT_SECRET net sent) = Return access_token).
Proof.
  intros Hid Hsec Hpost. unfold get_token. rewrite Hid, Hsec. simpl.
  unfold post, bind, modify, lift. fold (token_request CLIENT_ID CLIENT_SECRET).
  rewrite Hpost. split.
  - intros Hne. apply Z.eqb_neq in Hne. by rewrite Hne.
  - intros Heq body tok Hbody Htok. apply Z.eqb_eq in Heq. rewrite Heq. simpl.
    unfold resp_json. rewrite Hbody. simpl. by rewrite Htok.
Qed.

Lemma get_token_response_witness :
  fst (get_token (Some "id") (Some "s3cret")
         (constant_network (json_response 401 "invalid_client" None)) [])
  = Raise (RuntimeError "Token error [401]: invalid_client")
  ∧ fst (get_token (Some "id") (Some "s3cret")
           (constant_network
              (json_response 200 "{}" (Some (JObj {[ "access_token" := JStr "BQD" ]})))) [])
    = Return (JStr "BQD").
Proof.
  split.
  - apply (get_token_response (Some "id") (Some "s3cret")
             (constant_network (json_response 401 "invalid_client" None)) []
             (json_response 401 "invalid_client" None));
      [reflexivity | reflexivity | reflexivity | simpl; lia].
  - apply (get_token_response (Some "id") (Some "s3cret")
             (constant_network
                (json_response 200 "{}" (Some (JObj {[ "access_token" := JStr "BQD" ]})))) []
             (json_response 200 "{}" (Some (JObj {[ "access_token" := JStr "BQD" ]}))))
      with (body := {[ "access_token" := JStr "BQD" ]});
      [reflexivity | reflexivity | reflexivity | reflexivity | reflexivity | reflexivity].
Defined.

(** C9. A 200 token response whose JSON body is an object without the key
    [access_token] makes [get_token] raise [KeyError], which is not the
    [RuntimeError] of the non-200 statuses: the lookup is unguarded. *)
Theorem get_token_missing_access_token
    (CLIENT_ID CLIENT_SECRET : option string) (net : network) (sent : list request)
    (resp : response) (body : gmap string json) :
  env_truthy CLIENT_ID = true → env_truthy CLIENT_SECRET = true →
  http_post net (token_request CLIENT_ID CLIENT_SECRET) = Return resp →
  status_code resp = 200 →
  json_body resp = Some (JObj body) →
  body !! "access_token" = None →
  fst (get_token CLIENT_ID CLIENT_SECRET net sent) = Raise (KeyError "access_token")
  ∧ ∀ msg, fst (get_token CLIENT_ID CLIENT_SECRET net sent) ≠ Raise (RuntimeError msg).
Proof.
  intros Hid Hsec Hpost Hstatus Hbody Hkey.
  assert (fst (get_token CLIENT_ID CLIENT_SECRET net sent) = Raise (KeyError "access_token"))
    as Hres.
  { unfold get_token. rewrite Hid, Hsec. simpl.
    unfold post, bind, modify, lift. fold (token_request CLIENT_ID CLIENT_SECRET).
    rewrite Hpost. apply Z.eqb_eq in Hstatus. rewrite Hstatus. simpl.
    unfold resp_json. rewrite Hbody. simpl. by rewrite Hkey. }
  split; [done|]. intros msg. by rewrite Hres.
Qed.

Lemma get_token_missing_access_token_witness :
  fst (get_token (Some "id") (Some "s3cret")
         (constant_network
            (json_response 200 "{}" (Some (JObj {[ "token_type" := JStr "Bearer" ]})))) [])
  = Raise (KeyError "access_token").
Proof.
  apply (get_token_missing_access_token (Some "id") (Some "s3cret")
           (constant_network
              (json_response 200 "{}" (Some (JObj {[ "token_type" := JStr "Bearer" ]})))) []
           (json_response 200 "{}" (Some (JObj {[ "token_type" := JStr "Bearer" ]})))
           {[ "token_type" := JStr "Bearer" ]});
    reflexivity.
Defined.

(* ===================================================================== *)
(** * Catalog fetches of the artist page *)
(* ===================================================================== *)

(** C3 (as amended). Every albums fetch of the application sends exactly one
    GET, asking for the release types album, single and compilation, market
    "US" and a page of 12 items: the call site overrides the helper's default
    limit of 10. *)
Theorem albums_fetch_request (net : network) (token artist_id : json)
    (sent : list request) :
  get_artist_albums_default_limit = 10
  ∧ ∃ r : request,
      snd (albums_worker net token artist_id sent) = (sent ++ [r])%list
      ∧ req_method r = GET
      ∧ req_params r = {[ "include_groups" := JStr "album,single,compilation";
                          "limit" := JNum 12;
                          "market" := JStr "US" ]}.
Proof.
  split; [done|].
  exists (albums_request token artist_id 12). split; [|done].
  unfold albums_worker, try_except, get_artist_albums, Spotify.get, bind, modify, lift, ret.
  simpl. fold (albums_request token artist_id 12).
  destruct (http_get net _) as [resp|e]; [|done].
  destruct (negb _); [done|].
  destruct (resp_json resp) as [body|e]; [|done].
  by destruct (getitem body "items").
Qed.

(** C3 as stated fails: the page limit the application asks for is not 10. *)
Lemma albums_fetch_limit_not_10 :
  ∃ r : request,
    snd (albums_worker (constant_network (json_response 200 "{}" (Some (JObj ∅))))
           (JStr "BQD") (JStr "4dpARuHxo51G3z768sgnrY") []) = [r]
    ∧ req_params r !! "limit" = Some (JNum 12)
    ∧ req_params r !! "limit" ≠ Some (JNum 10).
Proof.
  eexists. split; [reflexivity|]. split; [reflexivity|].
  vm_compute. discriminate.
Qed.

(* ===================================================================== *)
(** * Rows gridded by a loop *)
(* ===================================================================== *)

Section Rows.
Variable row_widget : Z → json → result widget.
Variable row : Z → json → M (list placed) unit.
Hypothesis row_spec : ∀ i x, row i x = bind (lift (row_widget i x)) (λ w, grid i 0 w).

(** Whatever happens, the loop leaves behind the rows of [rows_from], after
    the children that were there. *)
Lemma for_each_rows (items : list json) (start : Z) (cs : list placed) :
  snd (for_each (enumerate items start) (λ ix, row ix.1 ix.2) cs)
  = (cs ++ rows_from row_widget start items)%list.
Proof.
  revert start cs. induction items as [|x items IH]; intros start cs; simpl.
  - by rewrite app_nil_r.
  - unfold bind at 1. rewrite row_spec. unfold bind at 1, lift, grid, modify.
    destruct (row_widget start x) as [w|e]; simpl.
    + rewrite IH. by rewrite <- app_assoc.
    + by rewrite app_nil_r.
Qed.

(** The loop returns when no row raises. *)
Lemma for_each_returns (items : list json) (start : Z) (cs : list placed) :
  Forall (λ x, ∀ i, raises (row_widget i x) = false) items →
  fst (for_each (enumerate items start) (λ ix, row ix.1 ix.2) cs) = Return tt.
Proof.
  intros Hok. revert start cs.
  induction Hok as [|x items Hx _ IH]; intros start cs; simpl; [done|].
  unfold bind at 1. rewrite row_spec. unfold bind at 1, lift, grid, modify.
  specialize (Hx start). destruct (row_widget start x) as [w|e]; [|done].
  simpl. apply IH.
Qed.

Lemma rows_from_length (items : list json) (start : Z) :
  Forall (λ x, ∀ i, raises (row_widget i x) = false) items →
  length (rows_from row_widget start items) = length items.
Proof.
  intros Hok. revert start.
  induction Hok as [|x items Hx _ IH]; intros start; simpl; [done|].
  specialize (Hx start). destruct (row_widget start x); [|done].
  simpl. by rewrite IH.
Qed.

(** Row [k] is the row of item [k], at grid row [start + k]. *)
Lemma rows_from_lookup (items : list json) (start : Z) (k : nat) (x : json) :
  Forall (λ x, ∀ i, raises (row_widget i x) = false) items →
  items !! k = Some x →
  ∃ w, row_widget (start + Z.of_nat k) x = Return w
       ∧ rows_from row_widget start items !! k = Some (start + Z.of_nat k, 0, w).
Proof.
  intros Hok. revert start k.
  induction Hok as [|y items Hy _ IH]; intros start k Hk; [done|].
  simpl. pose proof (Hy start) as Hs.
  destruct (row_widget start y) as [w|e] eqn:Hw; [|done].
  destruct k as [|k]; simpl in *.
  - injection Hk as ->. exists w. by rewrite Z.add_0_r.
  - destruct (IH (start + 1) k Hk) as (w' & Hw' & Hl).
    exists w'. replace (start + Z.of_nat (S k)) with (start + 1 + Z.of_nat k) by lia.
    done.
Qed.
End Rows.

(* ===================================================================== *)
(** * Artist rows *)
(* ===================================================================== *)

Lemma strings_of_strings (i : nat) (ss : list string) :
  strings_of i (JStr <$> ss) = inr ss.
Proof.
  revert i. induction ss as [|s ss IH]; intros i; simpl; [done|]. by rewrite IH.
Qed.

Lemma genre_names_strings (gs : list string) :
  omap (λ v, match v with JStr s => Some s | _ => None end) (JStr <$> gs) = gs.
Proof. induction gs as [|g gs IH]; csimpl; [done|]. by f_equal. Qed.

(** The row of a well-typed artist object, whichever of its fields are there. *)
Lemma artist_row_widget_ok (m : gmap string json) :
  artist_fields_ok m →
  artist_row_widget (JObj m)
  = Return (artist_frame (JObj m) (default (JStr "Unknown") (m !! "name"))
              (followers_total m)
              (str_or (join_strings ", " (take 3 (genre_names m))) "N/A")).
Proof.
  intros [Hf Hg]. unfold artist_row_widget, followers_total, genre_names. simpl.
  assert (∃ f : gmap string json, default (JObj ∅) (m !! "followers") = JObj f
            ∧ default (JNum 0) (f !! "total")
              = match m !! "followers" with
                | Some (JObj f) => default (JNum 0) (f !! "total")
                | _ => JNum 0
                end) as (f & -> & <-).
  { destruct (m !! "followers") as [v|]; simpl.
    - destruct (Hf v eq_refl) as [f ->]. by exists f.
    - by exists ∅. }
  simpl.
  assert (∃ gs : list string, default (JList []) (m !! "genres") = JList (JStr <$> gs)
            ∧ gs = match m !! "genres" with
                   | Some (JList gs) =>
                       omap (λ v, match v with JStr s => Some s | _ => None end) gs
                   | _ => []
                   end) as (gs & -> & <-).
  { destruct (m !! "genres") as [v|]; simpl.
    - destruct (Hg v eq_refl) as [gs ->]. exists gs. by rewrite genre_names_strings.
    - by exists []. }
  simpl. unfold join. simpl. rewrite <- fmap_take, strings_of_strings. done.
Qed.

Lemma artist_fields_ok_delete (m : gmap string json) (k : string) :
  artist_fields_ok m → artist_fields_ok (delete k m).
Proof.
  intros [Hf Hg]. split; intros v Hv.
  - apply Hf. by apply lookup_delete_Some in Hv as [_ ?].
  - apply Hg. by apply lookup_delete_Some in Hv as [_ ?].
Qed.

Lemma artist_fields_ok_followers (m f : gmap string json) :
  artist_fields_ok m → artist_fields_ok (<["followers" := JObj f]> m).
Proof.
  intros [Hf Hg]. split; intros v Hv.
  - apply lookup_insert_Some in Hv as [[_ <-]|[_ Hv]]; [by eexists | by apply Hf].
  - apply lookup_insert_Some in Hv as [[? _]|[_ Hv]]; [done | by apply Hg].
Qed.

Lemma artist_ok_returns (a : json) :
  artist_ok a → ∀ i : Z, raises ((λ _ : Z, artist_row_widget) i a) = false.
Proof. intros (m & -> & Hm) _. by rewrite artist_row_widget_ok. Qed.

Lemma render_artist_choices_loop (artists : list json) (cs : list placed) :
  artists ≠ [] →
  _render_artist_choices (JList artists) cs
  = for_each (enumerate artists 1) (λ ia, artist_row ia.1 ia.2)
      [(0, 0, select_artist_label)].
Proof. by destruct artists. Qed.

(** C8. An empty result list clears the region and leaves exactly the "No
    artists found." label, hence no row.  A non-empty list of [n] artist objects
    leaves the "Select an artist:" label followed by exactly [n] rows, row [k]
    at grid row [k + 1] being the row of artist [k]: its label shows the
    follower count and the first three genres at most, joined by ", " ("N/A"
    when that text is empty), and its enabled [Open] button selects the
    artist. *)
Theorem render_artist_choices_rows (cs : list placed) :
  _render_artist_choices (JList []) cs = (Return tt, [(0, 0, no_artists_label)])
  ∧ ∀ artists : list json,
      artists ≠ [] → Forall artist_ok artists →
      ∃ rows : list placed,
        _render_artist_choices (JList artists) cs
        = (Return tt, (0, 0, select_artist_label) :: rows)
        ∧ length rows = length artists
        ∧ ∀ (k : nat) (a : json),
            artists !! k = Some a →
            ∃ m : gmap string json,
              a = JObj m
              ∧ rows !! k
                = Some (1 + Z.of_nat k, 0,
                        artist_frame a (default (JStr "Unknown") (m !! "name"))
                          (followers_total m)
                          (str_or (join_strings ", " (take 3 (genre_names m))) "N/A")).
Proof.
  split; [done|]. intros artists Hne Hok.
  assert (Forall (λ x, ∀ i : Z, raises ((λ _ : Z, artist_row_widget) i x) = false) artists)
    as Hret.
  { eapply Forall_impl; [exact Hok|]. intros a Ha. by apply artist_ok_returns. }
  exists (rows_from (λ _, artist_row_widget) 1 artists).
  rewrite render_artist_choices_loop by done. split; [|split].
  - rewrite (surjective_pairing (for_each _ _ _)).
    rewrite (for_each_returns (λ _, artist_row_widget) artist_row) by done.
    by rewrite (for_each_rows (λ _, artist_row_widget) artist_row).
  - by apply rows_from_length.
  - intros k a Hk.
    destruct (rows_from_lookup (λ _, artist_row_widget) artists 1 k a Hret Hk)
      as (w & Hw & Hrow).
    rewrite Forall_lookup in Hok. destruct (Hok k a Hk) as (m & -> & Hm).
    exists m. split; [done|]. rewrite artist_row_widget_ok in Hw by done.
    injection Hw as <-. done.
Qed.

(** C10. The row of an artist object whose present fields are well typed is
    always built: a missing [name] shows as "Unknown", missing [followers] or
    a missing [total] in it as 0, missing or empty [genres] as "N/A"; and
    taking any field away, from the object or from its [followers], never makes
    the row raise. *)
Theorem artist_row_total (m : gmap string json) :
  artist_fields_ok m →
  ∃ (name followers : json) (genres : string),
    artist_row_widget (JObj m) = Return (artist_frame (JObj m) name followers genres)
    ∧ (m !! "name" = None → name = JStr "Unknown")
    ∧ (m !! "followers" = None → followers = JNum 0)
    ∧ (∀ f : gmap string json,
         m !! "followers" = Some (JObj f) → f !! "total" = None → followers = JNum 0)
    ∧ (m !! "genres" = None ∨ m !! "genres" = Some (JList []) → genres = "N/A")
    ∧ (∀ k : string, raises (artist_row_widget (JObj (delete k m))) = false)
    ∧ (∀ (f : gmap string json) (k : string),
         m !! "followers" = Some (JObj f) →
         raises (artist_row_widget (JObj (<["followers" := JObj (delete k f)]> m)))
         = false).
Proof.
  intros Hok. eexists _, _, _. split; [by apply artist_row_widget_ok|].
  split; [by intros ->|]. split; [unfold followers_total; by intros ->|].
  split; [unfold followers_total; by intros f -> ->|].
  split; [unfold genre_names; by intros [-> | ->]|].
  split.
  - intros k. by rewrite artist_row_widget_ok by by apply artist_fields_ok_delete.
  - intros f k _. by rewrite artist_row_widget_ok by by apply artist_fields_ok_followers.
Qed.

Lemma adele_ok : artist_ok (JObj adele_fields).
Proof.
  exists adele_fields. split; [done|]. split; intros v Hv; vm_compute in Hv.
  - injection Hv as <-. by eexists.
  - injection Hv as <-. by exists ["british soul"; "pop"; "pop soul"; "uk pop"].
Qed.

Lemma adele_roberts_ok : artist_ok (JObj adele_roberts_fields).
Proof.
  exists adele_roberts_fields. split; [done|]. split; intros v Hv; vm_compute in Hv; done.
Qed.

Lemma render_artist_choices_rows_witness :
  ∃ rows : list placed,
    _render_artist_choices (JList [JObj adele_fields; JObj adele_roberts_fields]) []
    = (Return tt, (0, 0, select_artist_label) :: rows)
    ∧ length rows = 2%nat.
Proof.
  destruct (proj2 (render_artist_choices_rows [])
              [JObj adele_fields; JObj adele_roberts_fields])
    as (rows & Hrender & Hlen & _).
  - discriminate.
  - repeat constructor; [apply adele_ok | apply adele_roberts_ok].
  - exists rows. split; [exact Hrender | exact Hlen].
Defined.

(** The two rows of that search, as the user reads them. *)
Example render_adele_search :
  snd (_render_artist_choices (JList [JObj adele_fields; JObj adele_roberts_fields]) [])
  = [(0, 0, select_artist_label);
     (1, 0, artist_frame (JObj adele_fields) (JStr "Adele") (JNum 100)
              "british soul, pop, pop soul");
     (2, 0, artist_frame (JObj adele_roberts_fields) (JStr "Adele Roberts") (JNum 0)
              "N/A")]
  ∧ fstring_str [FVal (JStr "Adele"); FLit "  ·  "; FVal (JNum 100);
                 FLit " followers  ·  "; FVal (JStr "british soul, pop, pop soul")]
    = Some "Adele  ·  100 followers  ·  british soul, pop, pop soul".
Proof. split; reflexivity. Qed.

Lemma artist_row_total_witness :
  ∃ (name followers : json) (genres : string),
    artist_row_widget (JObj adele_roberts_fields)
    = Return (artist_frame (JObj adele_roberts_fields) name followers genres)
    ∧ followers = JNum 0 ∧ genres = "N/A".
Proof.
  destruct (artist_row_total adele_roberts_fields)
    as (name & followers & genres & Hrow & _ & Hfollowers & _ & Hgenres & _).
  - split; intros v Hv; vm_compute in Hv; discriminate.
  - exists name, followers, genres. split; [exact Hrow|]. split.
    + apply Hfollowers. reflexivity.
    + apply Hgenres. left. reflexivity.
Defined.

(* ===================================================================== *)
(** * Track rows *)
(* ===================================================================== *)

Lemma track_row_widget_ok (i : Z) (m : gmap string json) :
  track_fields_ok m →
  track_row_widget i (JObj m)
  = Return (track_frame i m
              (if truthy (default JNull (m !! "preview_url")) then
                 CTkButton "▶ Preview" normal
                   (Some (CmdPlayPreview (default JNull (m !! "preview_url"))))
               else CTkButton "No Preview" disabled None)).
Proof.
  intros Hu. unfold track_row_widget, track_frame, track_url. simpl.
  destruct (m !! "external_urls") as [v|] eqn:Hv; simpl; [|done].
  by destruct (Hu v Hv) as [u ->].
Qed.

Lemma track_ok_returns (t : json) :
  track_ok t → ∀ i : Z, raises (track_row_widget i t) = false.
Proof. intros (m & -> & Hm) i. by rewrite track_row_widget_ok. Qed.

Lemma populate_tracks_rows (tracks : list json) (cs : list placed) :
  tracks ≠ [] → Forall track_ok tracks →
  _populate_tracks (JList tracks) cs = (Return tt, rows_from track_row_widget 1 tracks).
Proof.
  intros Hne Hok.
  assert (_populate_tracks (JList tracks) cs
          = for_each (enumerate tracks 1) (λ it, track_row it.1 it.2) []) as ->
    by by destruct tracks.
  assert (Forall (λ x, ∀ i : Z, raises (track_row_widget i x) = false) tracks) as Hret.
  { eapply Forall_impl; [exact Hok|]. intros t Ht. by apply track_ok_returns. }
  rewrite (surjective_pairing (for_each _ _ _)).
  rewrite (for_each_returns track_row_widget track_row) by done.
  by rewrite (for_each_rows track_row_widget track_row).
Qed.

Lemma take_track_ok (n : nat) (tracks : list json) :
  Forall track_ok tracks → Forall track_ok (take n tracks).
Proof. apply Forall_take. Qed.

(** What the top-tracks worker hands over on a 200 response carrying a list. *)
Lemma top_tracks_worker_call (net : network) (token artist_id : json)
    (sent : list request) (resp : response) (body : gmap string json)
    (tracks : list json) :
  http_get net (top_tracks_request token artist_id "US") = Return resp →
  status_code resp = 200 →
  json_body resp = Some (JObj body) →
  body !! "tracks" = Some (JList tracks) →
  top_tracks_worker net token artist_id sent
  = (Return (PopulateTracks (JList (take 10 tracks))),
     (sent ++ [top_tracks_request token artist_id "US"])%list).
Proof.
  intros Hget Hstatus Hbody Htracks.
  unfold top_tracks_worker, try_except, get_artist_top_tracks, Spotify.get,
    get_artist_top_tracks_default_market, bind, modify, lift, ret.
  simpl. fold (top_tracks_request token artist_id "US"). rewrite Hget.
  apply Z.eqb_eq in Hstatus. rewrite Hstatus. simpl.
  unfold resp_json. rewrite Hbody. simpl. by rewrite Htracks.
Qed.

(** C6. On a 200 response carrying a list of tracks, the worker hands the first
    10 tracks at most to [_populate_tracks], in response order; a list of 10 or
    fewer is handed over whole.  The rows then rendered are the rows of those
    tracks, row [k] at grid row [k + 1]. *)
Theorem top_tracks_truncated (net : network) (token artist_id : json)
    (sent : list request) (resp : response) (body : gmap string json)
    (tracks : list json) :
  http_get net (top_tracks_request token artist_id "US") = Return resp →
  status_code resp = 200 →
  json_body resp = Some (JObj body) →
  body !! "tracks" = Some (JList tracks) →
  fst (top_tracks_worker net token artist_id sent)
  = Return (PopulateTracks (JList (take 10 tracks)))
  ∧ (length (take 10 tracks) ≤ 10)%nat
  ∧ (∀ k : nat, (k < 10)%nat → take 10 tracks !! k = tracks !! k)
  ∧ ((length tracks ≤ 10)%nat → take 10 tracks = tracks)
  ∧ (tracks = [] →
     fst (_render_top_tracks_section net token artist_id sent)
     = Return (Return tt, [(0, 0, no_tracks_label)]))
  ∧ (tracks ≠ [] → Forall track_ok tracks →
     ∃ rows : list placed,
       fst (_render_top_tracks_section net token artist_id sent)
       = Return (Return tt, rows)
       ∧ length rows = Nat.min 10 (length tracks)
       ∧ ∀ (k : nat) (t : json),
           (k < 10)%nat → tracks !! k = Some t →
           ∃ w : widget,
             track_row_widget (1 + Z.of_nat k) t = Return w
             ∧ rows !! k = Some (1 + Z.of_nat k, 0, w)).
Proof.
  intros Hget Hstatus Hbody Htracks.
  pose proof (top_tracks_worker_call net token artist_id sent resp body tracks
                Hget Hstatus Hbody Htracks) as Hcall.
  split; [by rewrite Hcall|].
  split; [rewrite length_take; lia|].
  split; [intros k Hk; by apply lookup_take_lt|].
  split; [intros Hlen; by apply take_ge|].
  split.
  - intros ->. unfold _render_top_tracks_section, bind. by rewrite Hcall.
  - intros Hne Hok.
    assert (take 10 tracks ≠ []) as Hne' by by destruct tracks.
    assert (Forall (λ x, ∀ i : Z, raises (track_row_widget i x) = false) (take 10 tracks))
      as Hret.
    { eapply Forall_impl; [by apply take_track_ok|]. intros t Ht. by apply track_ok_returns. }
    exists (rows_from track_row_widget 1 (take 10 tracks)). split; [|split].
    + unfold _render_top_tracks_section, bind. rewrite Hcall. simpl. unfold ret. simpl.
      by rewrite populate_tracks_rows by (done || by apply take_track_ok).
    + rewrite rows_from_length by done. by rewrite length_take.
    + intros k t Hk Ht. apply rows_from_lookup; [done|].
      by rewrite lookup_take_lt.
Qed.

Lemma top_tracks_truncated_witness :
  fst (top_tracks_worker (constant_network twelve_tracks_response)
         (JStr "BQD") (JStr "4dpARuHxo51G3z768sgnrY") [])
  = Return (PopulateTracks (JList (take 10 twelve_tracks))).
Proof.
  apply (top_tracks_truncated (constant_network twelve_tracks_response)
           (JStr "BQD") (JStr "4dpARuHxo51G3z768sgnrY") [] twelve_tracks_response
           {[ "tracks" := JList twelve_tracks ]} twelve_tracks);
    reflexivity.
Defined.

(** C7 (as amended). In a rendered list of track objects every row has a
    playback control.  It is the disabled "No Preview" button, which ignores
    clicks, when [preview_url] is absent, [None] or the empty string; it is
    the enabled "Preview" button, whose click plays that URL, when
    [preview_url] is a non-empty string. *)
Theorem track_preview_control (format_exc : exn → string) (cs : list placed)
    (tracks : list json) :
  tracks ≠ [] → Forall track_ok tracks →
  ∃ rows : list placed,
    _populate_tracks (JList tracks) cs = (Return tt, rows)
    ∧ length rows = length tracks
    ∧ ∀ (k : nat) (m : gmap string json),
        tracks !! k = Some (JObj m) →
        ∃ play_btn : widget,
          rows !! k = Some (1 + Z.of_nat k, 0, track_frame (1 + Z.of_nat k) m play_btn)
          ∧ (m !! "preview_url" = None ∨ m !! "preview_url" = Some JNull
             ∨ m !! "preview_url" = Some (JStr "") →
             play_btn = CTkButton "No Preview" disabled None
             ∧ ∀ env w, click format_exc env play_btn w = (Return tt, w))
          ∧ (∀ s : string,
               m !! "preview_url" = Some (JStr s) → s ≠ "" →
               play_btn = CTkButton "▶ Preview" normal (Some (CmdPlayPreview (JStr s)))
               ∧ ∀ env w, click format_exc env play_btn w
                          = _safe_play_preview format_exc env (JStr s) w).
Proof.
  intros Hne Hok.
  assert (Forall (λ x, ∀ i : Z, raises (track_row_widget i x) = false) tracks) as Hret.
  { eapply Forall_impl; [exact Hok|]. intros t Ht. by apply track_ok_returns. }
  exists (rows_from track_row_widget 1 tracks).
  split; [by apply populate_tracks_rows|]. split; [by apply rows_from_length|].
  intros k m Hk.
  destruct (rows_from_lookup track_row_widget tracks 1 k (JObj m) Hret Hk)
    as (w & Hw & Hrow).
  rewrite Forall_lookup in Hok. destruct (Hok k _ Hk) as (m' & [= <-] & Hm).
  rewrite track_row_widget_ok in Hw by done. injection Hw as <-.
  eexists. split; [exact Hrow|]. split.
  - intros [-> | [-> | ->]]; done.
  - intros s -> Hs. simpl.
    assert (String.eqb s "" = false) as -> by by apply String.eqb_neq.
    done.
Qed.

Lemma track_preview_control_witness :
  ∃ rows : list placed,
    _populate_tracks (JList [JObj hello_fields; JObj skyfall_fields]) []
    = (Return tt, rows)
    ∧ length rows = 2%nat.
Proof.
  destruct (track_preview_control (λ _, "Traceback (most recent call last): ...") []
              [JObj hello_fields; JObj skyfall_fields])
    as (rows & Hrender & Hlen & _).
  - discriminate.
  - repeat constructor.
    + exists hello_fields. split; [reflexivity|]. intros v Hv. vm_compute in Hv.
      injection Hv as <-. eexists. reflexivity.
    + exists skyfall_fields. split; [reflexivity|]. intros v Hv. vm_compute in Hv.
      discriminate.
  - exists rows. split; [exact Hrender | exact Hlen].
Defined.

(** C7 as stated fails: a track that has a [preview_url], the empty string,
    gets the disabled control. *)
Lemma empty_preview_url_disabled :
  easy_fields !! "preview_url" = Some (JStr "")
  ∧ _populate_tracks (JList [JObj easy_fields]) []
    = (Return tt,
       [(1, 0, track_frame 1 easy_fields (CTkButton "No Preview" disabled None))]).
Proof. split; reflexivity. Qed.

(** The three sample tracks side by side. *)
Example populate_sample_tracks :
  _populate_tracks (JList [JObj hello_fields; JObj skyfall_fields; JObj easy_fields]) []
  = (Return tt,
     [(1, 0, track_frame 1 hello_fields
               (CTkButton "▶ Preview" normal
                  (Some (CmdPlayPreview (JStr "https://p.scdn.co/mp3-preview/1")))));
      (2, 0, track_frame 2 skyfall_fields (CTkButton "No Preview" disabled None));
      (3, 0, track_frame 3 easy_fields (CTkButton "No Preview" disabled None))]).
Proof. reflexivity. Qed.

(* ===================================================================== *)
(** * The preview player *)
(* ===================================================================== *)

Section Keeps.
Context {B : Type} (component : world → B).

Lemma keeps_ret {A} (a : A) : keeps component (ret a).
Proof. done. Qed.

Lemma keeps_raise {A} (e : exn) : keeps component (raise (A:=A) e).
Proof. done. Qed.

Lemma keeps_lift {A} (r : result A) : keeps component (lift r).
Proof. done. Qed.

Lemma keeps_gets {A} (f : world → A) : keeps component (gets f).
Proof. done. Qed.

Lemma keeps_outcome (o : option exn) : keeps component (outcome o).
Proof. by destruct o. Qed.

Lemma keeps_modify (f : world → world) :
  (∀ w, component (f w) = component w) → keeps component (modify f).
Proof. intros Hf w. apply Hf. Qed.

Lemma keeps_bind {A A'} (c : M world A) (k : A → M world A') :
  keeps component c → (∀ a, keeps component (k a)) → keeps component (bind c k).
Proof.
  intros Hc Hk w. unfold bind. specialize (Hc w).
  destruct (c w) as [[a|e] w']; simpl in *; [|done].
  by rewrite Hk.
Qed.

Lemma keeps_try_except {A} (body : M world A) (handler : exn → M world A) :
  keeps component body → (∀ e, keeps component (handler e)) →
  keeps component (try_except body handler).
Proof.
  intros Hb Hh w. unfold try_except. specialize (Hb w).
  destruct (body w) as [[a|e] w']; simpl in *; [done|].
  by rewrite Hh.
Qed.

Lemma keeps_if {A} (b : bool) (c1 c2 : M world A) :
  keeps component c1 → keeps component c2 → keeps component (if b then c1 else c2).
Proof. by destruct b. Qed.

Lemma keeps_Thread_start (target : M world unit) :
  keeps component target → keeps component (Thread_start target).
Proof. intros Ht w. apply Ht. Qed.
End Keeps.

Create HintDb keeps.
#[local] Hint Resolve keeps_ret keeps_raise keeps_lift keeps_gets keeps_outcome
  keeps_if keeps_Thread_start : keeps.

Ltac keeps_steps :=
  repeat first
    [ apply keeps_bind; [|intros ?]
    | apply keeps_try_except; [|intros ?]
    | apply keeps_if
    | apply keeps_modify; intros ?; reflexivity
    | solve [auto with keeps] ].

(** Downloading touches the requests only. *)
Lemma download_world (env : play_env) (url : json) (w : world) :
  download env url w
  = (http_get (net env) (preview_request url),
     set_sent (λ _, (sent w ++ [preview_request url])%list) w).
Proof.
  unfold download, Spotify.get, bind, modify, lift. simpl.
  fold (preview_request url). by destruct (http_get (net env) _).
Qed.

Lemma keeps_download {B} (component : world → B) (env : play_env) (url : json) :
  (∀ f w, component (set_sent f w) = component w) →
  keeps component (download env url).
Proof. intros Hc w. rewrite download_world. apply Hc. Qed.

Lemma ensure_init_linked (env : play_env) (w : world) :
  engine_linked w → engine_linked (snd (_ensure_init env w)).
Proof.
  intros Hw. unfold _ensure_init, mixer_init, bind, gets, outcome, modify, ret, raise.
  simpl. destruct (initialized (player w)) eqn:Hinit; simpl; [done|].
  destruct (mixer_init_outcome env); simpl; [|done].
  unfold engine_linked. simpl. by rewrite Hinit.
Qed.

Lemma engine_linked_flags (w w' : world) :
  init_flags w' = init_flags w → engine_linked w → engine_linked w'.
Proof. unfold init_flags, engine_linked. by intros [= -> ->]. Qed.

Lemma worker_body_linked (env : play_env) (url : json) (w : world) :
  engine_linked w → engine_linked (snd (worker_body env url w)).
Proof.
  intros Hw. unfold worker_body. unfold bind at 1.
  pose proof (ensure_init_linked env w Hw) as Hinit.
  destruct (_ensure_init env w) as [[[]|e] w1]; simpl in *; [|done].
  eapply engine_linked_flags; [|exact Hinit].
  match goal with
  | |- init_flags (snd (?c w1)) = _ => enough (keeps init_flags c) as Hc by apply Hc
  end.
  unfold NamedTemporaryFile, tmp_write, tmp_flush, tmp_close, music_load, music_play.
  apply keeps_bind; [by apply keeps_download|intros r].
  keeps_steps.
Qed.

Lemma stop_linked (w : world) :
  engine_linked w → engine_linked (snd (stop w)).
Proof.
  intros Hw. unfold stop, music_stop, bind, gets, modify, ret, raise. simpl.
  destruct (initialized (player w)) eqn:Hinit; simpl; [|done].
  rewrite (Hw Hinit). simpl. unfold engine_linked. simpl. intros _. by apply Hw.
Qed.

Lemma safe_play_preview_linked (format_exc : exn → string) (env : play_env)
    (url : json) (w : world) :
  engine_linked w → engine_linked (snd (_safe_play_preview format_exc env url w)).
Proof.
  intros Hw.
  unfold _safe_play_preview, try_except, play_from_url, Thread_start, worker, try_except.
  simpl. pose proof (worker_body_linked env url w Hw) as Hb.
  destruct (worker_body env url w) as [[[]|e] w1]; simpl in *; done.
Qed.

(** Every world the application reaches keeps the player and the engine in
    agreement. *)
Lemma reachable_linked (format_exc : exn → string) (w : world) :
  reachable format_exc w → engine_linked w.
Proof.
  induction 1 as [|w _ IH|env url w _ IH].
  - done.
  - by apply stop_linked.
  - by apply safe_play_preview_linked.
Qed.

Lemma stop_uninitialized (w : world) :
  initialized (player w) = false → stop w = (Return tt, w).
Proof. intros Hinit. unfold stop, bind, gets. simpl. by rewrite Hinit. Qed.

Lemma stop_initialized (w : world) :
  initialized (player w) = true → mixer_ready (engine w) = true →
  stop w
  = (Return tt,
     set_player (set_is_playing false)
       (set_engine (λ m, {| mixer_ready := mixer_ready m;
                            music_loaded := music_loaded m;
                            music_busy := false |}) w)).
Proof.
  intros Hinit Hready. unfold stop, music_stop, bind, gets, modify. simpl.
  rewrite Hinit. simpl. by rewrite Hready.
Qed.

(** C5. In every world where the player and the engine agree, whatever the
    three fields of the player are, [stop()] returns without raising, keeps
    [current_file] and the temporary files on disk as they are, and changes
    nothing at all when the player is not initialised; a second [stop()] changes
    nothing more. *)
Theorem stop_spec (w : world) :
  engine_linked w →
  ∃ w' : world,
    stop w = (Return tt, w')
    ∧ current_file (player w') = current_file (player w)
    ∧ initialized (player w') = initialized (player w)
    ∧ files w' = files w
    ∧ (initialized (player w) = false → w' = w)
    ∧ stop w' = (Return tt, w').
Proof.
  intros Hw. destruct (initialized (player w)) eqn:Hinit.
  - pose proof (stop_initialized w Hinit (Hw Hinit)) as Hstop.
    eexists. split; [exact Hstop|]. simpl.
    split; [done|]. split; [done|]. split; [done|]. split; [done|].
    rewrite stop_initialized; [done|exact Hinit|exact (Hw Hinit)].
  - exists w. by rewrite stop_uninitialized.
Qed.

(** Every state of the player occurs in some world where it agrees with the
    engine, and in the worlds the application reaches [stop()] returns. *)
Lemma every_player_state_linked (p : PreviewPlayer) :
  ∃ w : world, player w = p ∧ engine_linked w.
Proof.
  exists {| player := p;
            engine := {| mixer_ready := true; music_loaded := None; music_busy := false |};
            files := ∅; sent := []; dialogs := [] |}.
  split; [done|]. by intros _.
Qed.

Lemma stop_reachable (format_exc : exn → string) (w : world) :
  reachable format_exc w → fst (stop w) = Return tt.
Proof.
  intros Hw%reachable_linked. destruct (initialized (player w)) eqn:Hinit.
  - by rewrite stop_initialized by auto.
  - by rewrite stop_uninitialized.
Qed.

Lemma stop_spec_witness :
  ∃ w' : world,
    stop playing_world = (Return tt, w')
    ∧ current_file (player w') = Some "/tmp/tmpa1b2c3.mp3"
    ∧ files w' = files playing_world.
Proof.
  destruct (stop_spec playing_world) as (w' & Hstop & Hfile & _ & Hfiles & _).
  - intros _. reflexivity.
  - exists w'. split; [exact Hstop|]. split; [exact Hfile | exact Hfiles].
Defined.

(** Stopping twice from the start, and stopping a playing preview. *)
Example stop_before_any_play :
  stop world_init = (Return tt, world_init)
  ∧ snd (stop (snd (stop playing_world))) = snd (stop playing_world)
  ∧ is_playing (player (snd (stop playing_world))) = false.
Proof. repeat split. Qed.

(** Which failures make the body of a play operation raise. *)
Lemma worker_body_mixer_fails (env : play_env) (url : json) (w : world) (e : exn) :
  initialized (player w) = false → mixer_init_outcome env = Some e →
  worker_body env url w = (Raise e, w).
Proof.
  intros Hinit He.
  unfold worker_body, _ensure_init, mixer_init, bind, gets, outcome, raise. simpl.
  by rewrite Hinit, He.
Qed.

Lemma ensure_init_returns (env : play_env) (w : world) :
  mixer_init_outcome env = None →
  ∃ w1, _ensure_init env w = (Return tt, w1)
        ∧ mixer_ready (engine w1) = (initialized (player w) && mixer_ready (engine w)
                                     || negb (initialized (player w))).
Proof.
  intros Hok. unfold _ensure_init, mixer_init, bind, gets, outcome, modify, ret.
  simpl. rewrite Hok. destruct (initialized (player w)); simpl; eexists; split; try done.
  by rewrite orb_false_r.
Qed.

Lemma worker_body_download_fails (env : play_env) (url : json) (w : world) (e : exn) :
  mixer_init_outcome env = None →
  http_get (net env) (preview_request url) = Raise e →
  fst (worker_body env url w) = Raise e.
Proof.
  intros Hok Hget. destruct (ensure_init_returns env w Hok) as (w1 & Hinit & _).
  unfold worker_body. unfold bind at 1. rewrite Hinit.
  unfold bind at 1. rewrite download_world, Hget. done.
Qed.

Lemma worker_body_bad_status (env : play_env) (url : json) (w : world) (r : response) :
  mixer_init_outcome env = None →
  http_get (net env) (preview_request url) = Return r →
  status_code r ≠ 200 →
  fst (worker_body env url w)
  = Raise (RuntimeError ("Preview download error [" ++ int_str (status_code r) ++ "]")).
Proof.
  intros Hok Hget Hstatus. destruct (ensure_init_returns env w Hok) as (w1 & Hinit & _).
  unfold worker_body. unfold bind at 1. rewrite Hinit.
  unfold bind at 1. rewrite download_world, Hget.
  apply Z.eqb_neq in Hstatus. by rewrite Hstatus.
Qed.

Lemma worker_body_write_fails (env : play_env) (url : json) (w : world) (r : response)
    (tmp : string) (e : exn) :
  mixer_init_outcome env = None →
  http_get (net env) (preview_request url) = Return r →
  status_code r = 200 →
  tempfile_outcome env = Return tmp →
  write_outcome env = Some e →
  fst (worker_body env url w) = Raise e.
Proof.
  intros Hok Hget Hstatus Htmp Hwrite.
  destruct (ensure_init_returns env w Hok) as (w1 & Hinit & _).
  unfold worker_body. unfold bind at 1. rewrite Hinit.
  unfold bind at 1. rewrite download_world, Hget.
  apply Z.eqb_eq in Hstatus. rewrite Hstatus. simpl.
  unfold NamedTemporaryFile, tmp_write, bind, lift, modify, outcome, ret, raise.
  by rewrite Htmp, Hwrite.
Qed.

Lemma worker_body_load_fails (env : play_env) (url : json) (w : world) (r : response)
    (tmp : string) (e : exn) :
  engine_linked w →
  mixer_init_outcome env = None →
  http_get (net env) (preview_request url) = Return r →
  status_code r = 200 →
  tempfile_outcome env = Return tmp →
  write_outcome env = None → flush_outcome env = None → close_outcome env = None →
  load_outcome env = Some e →
  fst (worker_body env url w) = Raise e.
Proof.
  intros Hw Hok Hget Hstatus Htmp Hwrite Hflush Hclose Hload.
  destruct (ensure_init_returns env w Hok) as (w1 & Hinit & Hready).
  assert (mixer_ready (engine w1) = true) as Hr.
  { rewrite Hready. destruct (initialized (player w)) eqn:Hi; [|done].
    by rewrite (Hw Hi). }
  unfold worker_body. unfold bind at 1. rewrite Hinit.
  unfold bind at 1. rewrite download_world, Hget.
  apply Z.eqb_eq in Hstatus. rewrite Hstatus. simpl.
  unfold NamedTemporaryFile, tmp_write, tmp_flush, tmp_close, music_load,
    bind, lift, modify, gets, outcome, ret, raise.
  rewrite Htmp, Hwrite, Hflush, Hclose. simpl. by rewrite Hr, Hload.
Qed.

(** When nothing fails the preview ends up playing from the new file. *)
Lemma worker_body_plays (url : json) (w : world) (r : response) (tmp : string) :
  engine_linked w → status_code r = 200 →
  ∃ w', worker_body (working_env r tmp) url w = (Return tt, w')
        ∧ is_playing (player w') = true
        ∧ current_file (player w') = Some tmp
        ∧ files w' = <[tmp := content r]> (<[tmp := ""]> (files w)).
Proof.
  intros Hw Hstatus.
  destruct (ensure_init_returns (working_env r tmp) w eq_refl) as (w1 & Hinit & Hready).
  assert (mixer_ready (engine w1) = true) as Hr.
  { rewrite Hready. destruct (initialized (player w)) eqn:Hi; [|done].
    by rewrite (Hw Hi). }
  assert (files w1 = files w) as Hfiles.
  { revert Hinit. unfold _ensure_init, mixer_init, bind, gets, outcome, modify, ret.
    simpl. destruct (initialized (player w)); simpl; by intros [= <-]. }
  unfold worker_body. unfold bind at 1. rewrite Hinit.
  unfold bind at 1. rewrite download_world. simpl.
  apply Z.eqb_eq in Hstatus. rewrite Hstatus. simpl.
  unfold NamedTemporaryFile, tmp_write, tmp_flush, tmp_close, music_load, music_play,
    bind, lift, modify, gets, outcome, ret, raise.
  simpl. repeat (rewrite Hr; simpl).
  eexists. split; [reflexivity|]. simpl. by rewrite Hfiles.
Qed.

Lemma worker_body_keeps_dialogs (env : play_env) (url : json) :
  keeps dialogs (worker_body env url).
Proof.
  unfold worker_body, _ensure_init, mixer_init, NamedTemporaryFile, tmp_write,
    tmp_flush, tmp_close, music_load, music_play.
  apply keeps_bind; [keeps_steps|intros _].
  apply keeps_bind; [by apply keeps_download|intros r].
  keeps_steps.
Qed.

(** C4. Whatever exception the body of a play operation raises, the worker
    catches it: it sets [is_playing] to [False] and then calls the failure
    callback, when there is one, once with [str(e)]; without a callback it just
    returns.  The caller of [play_from_url] gets its return and never the
    exception.  Started from a preview button, the operation shows exactly one
    "Preview Error" dialog carrying [str(e)] and returns. *)
Theorem play_error_reported (format_exc : exn → string) (env : play_env) (url : json)
    (on_error : option (string → M world unit)) (w w_e : world) (e : exn) :
  worker_body env url w = (Raise e, w_e) →
  worker env url on_error w
  = match on_error with
    | Some callback => callback (exn_str e) (set_player (set_is_playing false) w_e)
    | None => (Return tt, set_player (set_is_playing false) w_e)
    end
  ∧ is_playing (player (set_player (set_is_playing false) w_e)) = false
  ∧ fst (play_from_url env url on_error w) = Return tt
  ∧ _safe_play_preview format_exc env url w
    = (Return tt,
       set_dialogs (λ ds, (ds ++ [("Preview Error", exn_str e)])%list)
         (set_player (set_is_playing false) w_e))
  ∧ dialogs (snd (_safe_play_preview format_exc env url w))
    = (dialogs w ++ [("Preview Error", exn_str e)])%list.
Proof.
  intros Hbody.
  assert (dialogs w_e = dialogs w) as Hd.
  { pose proof (worker_body_keeps_dialogs env url w) as Hk. by rewrite Hbody in Hk. }
  split; [|split; [done|split; [done|]]].
  - unfold worker, try_except. rewrite Hbody.
    unfold worker_handler, bind, modify. by destruct on_error.
  - assert (_safe_play_preview format_exc env url w
            = (Return tt,
               set_dialogs (λ ds, (ds ++ [("Preview Error", exn_str e)])%list)
                 (set_player (set_is_playing false) w_e))) as Hsafe.
    { unfold _safe_play_preview, try_except, play_from_url, Thread_start, worker,
        try_except.
      rewrite Hbody. done. }
    split; [exact Hsafe|]. rewrite Hsafe. simpl. by rewrite Hd.
Qed.

Lemma play_error_reported_witness :
  fst (play_from_url not_found_env (JStr "https://p.scdn.co/mp3-preview/1") None
         world_init) = Return tt
  ∧ dialogs (snd (_safe_play_preview (λ _, "Traceback (most recent call last): ...")
                    not_found_env (JStr "https://p.scdn.co/mp3-preview/1") world_init))
    = [("Preview Error", "Preview download error [404]")].
Proof.
  destruct (play_error_reported (λ _, "Traceback (most recent call last): ...")
              not_found_env (JStr "https://p.scdn.co/mp3-preview/1") None world_init
              (snd (worker_body not_found_env (JStr "https://p.scdn.co/mp3-preview/1")
                      world_init))
              (RuntimeError "Preview download error [404]"))
    as (_ & _ & Hcaller & _ & Hdialogs).
  - reflexivity.
  - split; [exact Hcaller | exact Hdialogs].
Defined.

(** A failed download from the start: the mixer is initialised, the request
    has gone out, nothing plays and one dialog is shown. *)
Example play_not_found :
  _safe_play_preview (λ _, "") not_found_env (JStr "https://p.scdn.co/mp3-preview/1")
    world_init
  = (Return tt,
     {| player := {| initialized := true; current_file := None; is_playing := false |};
        engine := {| mixer_ready := true; music_loaded := None; music_busy := false |};
        files := ∅;
        sent := [preview_request (JStr "https://p.scdn.co/mp3-preview/1")];
        dialogs := [("Preview Error", "Preview download error [404]")] |}).
Proof. reflexivity. Qed.

(* ===================================================================== *)
(** * The API helpers: requests and failures *)
(* ===================================================================== *)

Ltac run_helper :=
  unfold search_artists, get_artist_top_tracks, get_artist_albums, get_token,
    Spotify.get, post, bind, modify, lift, raise; simpl.

Lemma search_artists_sends (net : network) (token name : json) (limit : Z)
    (sent : list request) :
  snd (search_artists net token name limit sent)
  = (sent ++ [search_request token name limit])%list.
Proof.
  run_helper. fold (search_request token name limit).
  destruct (http_get net _) as [resp|e]; [|done].
  destruct (negb _); [done|].
  destruct (resp_json resp) as [body|e]; [|done]. simpl.
  destruct (getitem body "artists") as [artists|e]; [|done].
  by destruct (getitem artists "items").
Qed.

Lemma get_artist_top_tracks_sends (net : network) (token artist_id : json)
    (market : string) (sent : list request) :
  snd (get_artist_top_tracks net token artist_id market sent)
  = (sent ++ [top_tracks_request token artist_id market])%list.
Proof.
  run_helper. fold (top_tracks_request token artist_id market).
  destruct (http_get net _) as [resp|e]; [|done].
  destruct (negb _); [done|].
  destruct (resp_json resp) as [body|e]; [|done].
  by destruct (getitem body "tracks").
Qed.

Lemma get_artist_albums_sends (net : network) (token artist_id : json) (limit : Z)
    (sent : list request) :
  snd (get_artist_albums net token artist_id limit sent)
  = (sent ++ [albums_request token artist_id limit])%list.
Proof.
  run_helper. fold (albums_request token artist_id limit).
  destruct (http_get net _) as [resp|e]; [|done].
  destruct (negb _); [done|].
  destruct (resp_json resp) as [body|e]; [|done].
  by destruct (getitem body "items").
Qed.

(** X1. Whatever the remote side answers, each catalog helper sends exactly
    one request, a GET with the bearer token and its query, after the requests
    already sent: there is no retry and no second page. *)
Theorem catalog_helpers_send_one_request (net : network) (token : json)
    (sent : list request) :
  (∀ (name : json) (limit : Z),
     snd (search_artists net token name limit sent)
     = (sent ++ [search_request token name limit])%list)
  ∧ (∀ (artist_id : json) (market : string),
       snd (get_artist_top_tracks net token artist_id market sent)
       = (sent ++ [top_tracks_request token artist_id market])%list)
  ∧ (∀ (artist_id : json) (limit : Z),
       snd (get_artist_albums net token artist_id limit sent)
       = (sent ++ [albums_request token artist_id limit])%list).
Proof.
  split; [|split]; intros.
  - apply search_artists_sends.
  - apply get_artist_top_tracks_sends.
  - apply get_artist_albums_sends.
Qed.

(** X2. A catalog answer whose status is not 200 makes the helper raise a
    [RuntimeError] that names the helper's operation and holds the status code
    and the body text. *)
Theorem catalog_helpers_error_status (net : network) (token : json)
    (sent : list request) (resp : response) :
  status_code resp ≠ 200 →
  (∀ (name : json) (limit : Z),
     http_get net (search_request token name limit) = Return resp →
     fst (search_artists net token name limit sent)
     = Raise (RuntimeError ("Search error [" ++ int_str (status_code resp) ++ "]: "
                            ++ text resp)))
  ∧ (∀ (artist_id : json) (market : string),
       http_get net (top_tracks_request token artist_id market) = Return resp →
       fst (get_artist_top_tracks net token artist_id market sent)
       = Raise (RuntimeError ("Top tracks error [" ++ int_str (status_code resp) ++ "]: "
                              ++ text resp)))
  ∧ (∀ (artist_id : json) (limit : Z),
       http_get net (albums_request token artist_id limit) = Return resp →
       fst (get_artist_albums net token artist_id limit sent)
       = Raise (RuntimeError ("Albums error [" ++ int_str (status_code resp) ++ "]: "
                              ++ text resp))).
Proof.
  intros Hne%Z.eqb_neq. split; [|split].
  - intros name limit Hget. run_helper. fold (search_request token name limit).
    by rewrite Hget, Hne.
  - intros artist_id market Hget. run_helper.
    fold (top_tracks_request token artist_id market). by rewrite Hget, Hne.
  - intros artist_id limit Hget. run_helper.
    fold (albums_request token artist_id limit). by rewrite Hget, Hne.
Qed.

Lemma catalog_helpers_error_status_witness :
  fst (search_artists (constant_network (json_response 401 "expired" None))
         (JStr "BQD") (JStr "Adele") 5 [])
  = Raise (RuntimeError "Search error [401]: expired").
Proof.
  apply (catalog_helpers_error_status
           (constant_network (json_response 401 "expired" None)) (JStr "BQD") []
           (json_response 401 "expired" None)).
  - simpl. lia.
  - reflexivity.
Defined.

(** X3. An exception raised by the HTTP call itself (no connection, time out)
    leaves each of the four helpers as it is: none of them catches it. *)
Theorem helpers_propagate_network_failure (net : network) (token : json)
    (sent : list request) (e : exn) :
  (∀ (name : json) (limit : Z),
     http_get net (search_request token name limit) = Raise e →
     fst (search_artists net token name limit sent) = Raise e)
  ∧ (∀ (artist_id : json) (market : string),
       http_get net (top_tracks_request token artist_id market) = Raise e →
       fst (get_artist_top_tracks net token artist_id market sent) = Raise e)
  ∧ (∀ (artist_id : json) (limit : Z),
       http_get net (albums_request token artist_id limit) = Raise e →
       fst (get_artist_albums net token artist_id limit sent) = Raise e)
  ∧ (∀ CLIENT_ID CLIENT_SECRET : option string,
       env_truthy CLIENT_ID = true → env_truthy CLIENT_SECRET = true →
       http_post net (token_request CLIENT_ID CLIENT_SECRET) = Raise e →
       fst (get_token CLIENT_ID CLIENT_SECRET net sent) = Raise e).
Proof.
  split; [|split; [|split]].
  - intros name limit Hget. run_helper. fold (search_request token name limit).
    by rewrite Hget.
  - intros artist_id market Hget. run_helper.
    fold (top_tracks_request token artist_id market). by rewrite Hget.
  - intros artist_id limit Hget. run_helper.
    fold (albums_request token artist_id limit). by rewrite Hget.
  - intros cid sec Hid Hsec Hpost. unfold get_token. rewrite Hid, Hsec. simpl.
    unfold post, bind, modify, lift. fold (token_request cid sec). by rewrite Hpost.
Qed.

Lemma helpers_propagate_network_failure_witness :
  fst (get_token (Some "id") (Some "s3cret") unreachable_network [])
  = Raise (ExternalError "ConnectionError" "connection refused").
Proof.
  apply (helpers_propagate_network_failure unreachable_network JNull []
           (ExternalError "ConnectionError" "connection refused"));
    reflexivity.
Defined.

(** X4. On a 200 answer whose body is a JSON object, [search_artists] returns
    what is under [artists] then [items]; when either key is missing it raises
    the [KeyError] of that key. *)
Theorem search_artists_items (net : network) (token name : json) (limit : Z)
    (sent : list request) (resp : response) (body : gmap string json) :
  http_get net (search_request token name limit) = Return resp →
  status_code resp = 200 →
  json_body resp = Some (JObj body) →
  (body !! "artists" = None →
     fst (search_artists net token name limit sent) = Raise (KeyError "artists"))
  ∧ (∀ artists : gmap string json,
       body !! "artists" = Some (JObj artists) →
       (artists !! "items" = None →
          fst (search_artists net token name limit sent) = Raise (KeyError "items"))
       ∧ (∀ items : json,
            artists !! "items" = Some items →
            fst (search_artists net token name limit sent) = Return items)).
Proof.
  intros Hget Hstatus%Z.eqb_eq Hbody.
  assert (fst (search_artists net token name limit sent)
          = (artists ← getitem (JObj body) "artists"; getitem artists "items")) as ->.
  { run_helper. fold (search_request token name limit). rewrite Hget, Hstatus. simpl.
    unfold resp_json. rewrite Hbody. simpl.
    destruct (body !! "artists") as [artists|]; simpl; [|done].
    by destruct (getitem artists "items"). }
  simpl. split.
  - by intros ->.
  - intros artists ->. simpl. split; [by intros ->|]. by intros items ->.
Qed.

Lemma search_artists_items_witness :
  fst (search_artists (constant_network adele_search_response) (JStr "BQD")
         (JStr "Adele") 5 [])
  = Return (JList [JObj adele_fields; JObj adele_roberts_fields]).
Proof.
  eapply (search_artists_items (constant_network adele_search_response) (JStr "BQD")
            (JStr "Adele") 5 [] adele_search_response);
    reflexivity.
Defined.

(** X5. [get_token] sends one request at most: the client-credentials POST
    carrying the Basic authorisation of [base64(id:secret)] when both
    credentials are present, whatever is answered, and nothing otherwise. *)
Theorem get_token_one_request (CLIENT_ID CLIENT_SECRET : option string)
    (net : network) (sent : list request) :
  snd (get_token CLIENT_ID CLIENT_SECRET net sent)
  = (if env_truthy CLIENT_ID && env_truthy CLIENT_SECRET
     then sent ++ [token_request CLIENT_ID CLIENT_SECRET]
     else sent)%list
  ∧ req_headers (token_request CLIENT_ID CLIENT_SECRET) !! "Authorization"
    = Some [FLit "Basic ";
            FVal (JStr (b64encode (env_str CLIENT_ID ++ ":" ++ env_str CLIENT_SECRET)))]
  ∧ req_data (token_request CLIENT_ID CLIENT_SECRET) !! "grant_type"
    = Some "client_credentials".
Proof.
  split; [|done].
  destruct (env_truthy CLIENT_ID) eqn:Hid, (env_truthy CLIENT_SECRET) eqn:Hsec; simpl.
  - by apply get_token_sends.
  - unfold get_token. by rewrite Hid, Hsec.
  - unfold get_token. by rewrite Hid.
  - unfold get_token. by rewrite Hid.
Qed.

(** The header for the credentials [id] and [s3cret]. *)
Example token_request_header :
  req_headers (token_request (Some "id") (Some "s3cret")) !! "Authorization"
  = Some [FLit "Basic "; FVal (JStr "aWQ6czNjcmV0")].
Proof. reflexivity. Qed.

(* ===================================================================== *)
(** * Lists of results: empty answers, malformed items, albums *)
(* ===================================================================== *)

Section RowsStop.
Variable row_widget : Z → json → result widget.
Variable row : Z → json → M (list placed) unit.
Hypothesis row_spec : ∀ i x, row i x = bind (lift (row_widget i x)) (λ w, grid i 0 w).

(** The loop stops at the first item whose row raises, with that exception,
    and keeps the rows gridded before it. *)
Lemma for_each_stops (good rest : list json) (bad : json) (start : Z)
    (cs : list placed) (e : exn) :
  Forall (λ x, ∀ i, raises (row_widget i x) = false) good →
  row_widget (start + Z.of_nat (length good)) bad = Raise e →
  for_each (enumerate (good ++ bad :: rest) start) (λ ix, row ix.1 ix.2) cs
  = (Raise e, (cs ++ rows_from row_widget start good)%list).
Proof.
  intros Hgood. revert start cs.
  induction Hgood as [|x good Hx _ IH]; intros start cs Hbad; simpl in *.
  - rewrite Z.add_0_r in Hbad. unfold bind at 1. rewrite row_spec.
    unfold bind at 1, lift. rewrite Hbad. by rewrite app_nil_r.
  - unfold bind at 1. rewrite row_spec. unfold bind at 1, lift, grid, modify.
    specialize (Hx start). destruct (row_widget start x) as [w|e']; [|done].
    rewrite IH.
    + by rewrite <- app_assoc.
    + rewrite <- Hbad. f_equal. lia.
Qed.
End RowsStop.

(** X6. A falsy answer (an empty list, but also [null], [0], an empty string
    or an empty object) is shown as "nothing found": each of the three list
    renderers drops what the region held and leaves its orange label alone. *)
Theorem nothing_found (v : json) (cs : list placed) :
  truthy v = false →
  _render_artist_choices v cs = (Return tt, [(0, 0, no_artists_label)])
  ∧ _populate_tracks v cs = (Return tt, [(0, 0, no_tracks_label)])
  ∧ _populate_albums v cs = (Return tt, [(0, 0, no_albums_label)]).
Proof.
  intros Hv.
  unfold _render_artist_choices, _populate_tracks, _populate_albums, _clear_results,
    destroy_children, bind, modify, grid.
  by rewrite Hv.
Qed.

Lemma nothing_found_witness :
  _populate_albums JNull [(0, 0, CTkLabel [FLit "Loading albums…"] None)]
  = (Return tt, [(0, 0, no_albums_label)]).
Proof.
  apply (nothing_found JNull [(0, 0, CTkLabel [FLit "Loading albums…"] None)]).
  reflexivity.
Defined.

(** X7. When the search results hold an item that is not an object after
    some well-formed artists, [_render_artist_choices] raises the
    [AttributeError] of [.get] on that item and leaves the heading and the
    rows of the artists before it; the items after it get no row. *)
Theorem render_artist_choices_stops (good rest : list json) (bad : json)
    (cs : list placed) :
  Forall artist_ok good →
  (∀ m : gmap string json, bad ≠ JObj m) →
  _render_artist_choices (JList (good ++ bad :: rest)) cs
  = (Raise (AttributeError ("'" ++ type_name bad ++ "' object has no attribute 'get'")),
     (0, 0, select_artist_label) :: rows_from (λ _, artist_row_widget) 1 good)
  ∧ length (rows_from (λ _, artist_row_widget) 1 good) = length good.
Proof.
  intros Hgood Hbad.
  assert (Forall (λ x, ∀ i : Z, raises ((λ _ : Z, artist_row_widget) i x) = false) good)
    as Hret.
  { eapply Forall_impl; [exact Hgood|]. intros a Ha. by apply artist_ok_returns. }
  split; [|by apply rows_from_length].
  rewrite render_artist_choices_loop by by destruct good.
  rewrite (for_each_stops (λ _, artist_row_widget) artist_row) with
    (e := AttributeError ("'" ++ type_name bad ++ "' object has no attribute 'get'"));
    [done|done|done|].
  destruct bad as [| | | | |m]; try done. by destruct (Hbad m).
Qed.

Lemma render_artist_choices_stops_witness :
  _render_artist_choices (JList ([JObj adele_fields] ++ JNull :: [JObj adele_roberts_fields]))
    []
  = (Raise (AttributeError "'NoneType' object has no attribute 'get'"),
     (0, 0, select_artist_label) :: rows_from (λ _, artist_row_widget) 1 [JObj adele_fields]).
Proof.
  apply (render_artist_choices_stops [JObj adele_fields] [JObj adele_roberts_fields]
           JNull []).
  - repeat constructor. apply adele_ok.
  - intros m. discriminate.
Defined.

Lemma album_row_widget_ok (i : Z) (m : gmap string json) :
  track_fields_ok m → album_row_widget i (JObj m) = Return (album_frame i m).
Proof.
  intros Hu. unfold album_row_widget, album_frame, track_url. simpl.
  destruct (m !! "external_urls") as [v|] eqn:Hv; simpl; [|done].
  by destruct (Hu v Hv) as [u ->].
Qed.

Lemma album_ok_returns (a : json) :
  album_ok a → ∀ i : Z, raises (album_row_widget i a) = false.
Proof. intros (m & -> & Hm) i. by rewrite album_row_widget_ok. Qed.

Lemma populate_albums_rows_from (albums : list json) (cs : list placed) :
  albums ≠ [] → Forall album_ok albums →
  _populate_albums (JList albums) cs = (Return tt, rows_from album_row_widget 1 albums).
Proof.
  intros Hne Hok.
  assert (_populate_albums (JList albums) cs
          = for_each (enumerate albums 1) (λ ia, album_row ia.1 ia.2) []) as ->
    by by destruct albums.
  assert (Forall (λ x, ∀ i : Z, raises (album_row_widget i x) = false) albums) as Hret.
  { eapply Forall_impl; [exact Hok|]. intros t Ht. by apply album_ok_returns. }
  rewrite (surjective_pairing (for_each _ _ _)).
  rewrite (for_each_returns album_row_widget album_row) by done.
  by rewrite (for_each_rows album_row_widget album_row).
Qed.

(** X8. A non-empty list of [n] album objects is rendered as exactly [n] rows
    in answer order, row [k] at grid row [k + 1] and numbered [k + 1]: its
    label shows the name ("Unknown" when missing) and the release date ("N/A"
    when missing), and its [Open] button carries the album's Spotify URL (the
    empty string when missing). *)
Theorem populate_albums_rows (cs : list placed) (albums : list json) :
  albums ≠ [] → Forall album_ok albums →
  ∃ rows : list placed,
    _populate_albums (JList albums) cs = (Return tt, rows)
    ∧ length rows = length albums
    ∧ ∀ (k : nat) (m : gmap string json),
        albums !! k = Some (JObj m) →
        rows !! k = Some (1 + Z.of_nat k, 0, album_frame (1 + Z.of_nat k) m).
Proof.
  intros Hne Hok.
  assert (Forall (λ x, ∀ i : Z, raises (album_row_widget i x) = false) albums) as Hret.
  { eapply Forall_impl; [exact Hok|]. intros t Ht. by apply album_ok_returns. }
  exists (rows_from album_row_widget 1 albums).
  split; [by apply populate_albums_rows_from|]. split; [by apply rows_from_length|].
  intros k m Hk.
  destruct (rows_from_lookup album_row_widget albums 1 k (JObj m) Hret Hk)
    as (w & Hw & Hrow).
  rewrite Forall_lookup in Hok. destruct (Hok k _ Hk) as (m' & [= <-] & Hm).
  rewrite album_row_widget_ok in Hw by done. by injection Hw as <-.
Qed.

Lemma thirteen_albums_ok : Forall album_ok thirteen_albums.
Proof.
  apply Forall_replicate. eexists. split; [reflexivity|].
  intros v Hv. vm_compute in Hv. discriminate.
Qed.

Lemma populate_albums_rows_witness :
  ∃ rows : list placed,
    _populate_albums (JList thirteen_albums) [] = (Return tt, rows)
    ∧ length rows = 13%nat.
Proof.
  destruct (populate_albums_rows [] thirteen_albums) as (rows & Hrender & Hlen & _).
  - discriminate.
  - apply thirteen_albums_ok.
  - exists rows. split; [exact Hrender | exact Hlen].
Defined.

(** X9. The albums worker hands the answered list over whole: unlike the top
    tracks, the albums are not cut on the client side, so an answer of more
    than 10 (or 12) well-formed albums gets a row each. *)
Theorem albums_not_truncated (net : network) (token artist_id : json)
    (sent : list request) (resp : response) (body : gmap string json)
    (albums : list json) :
  http_get net (albums_request token artist_id 12) = Return resp →
  status_code resp = 200 →
  json_body resp = Some (JObj body) →
  body !! "items" = Some (JList albums) →
  fst (albums_worker net token artist_id sent) = Return (PopulateAlbums (JList albums))
  ∧ (albums ≠ [] → Forall album_ok albums →
     fst (_render_albums_section net token artist_id sent)
     = Return (Return tt, rows_from album_row_widget 1 albums)
     ∧ length (rows_from album_row_widget 1 albums) = length albums).
Proof.
  intros Hget Hstatus%Z.eqb_eq Hbody Hitems.
  assert (albums_worker net token artist_id sent
          = (Return (PopulateAlbums (JList albums)),
             (sent ++ [albums_request token artist_id 12])%list)) as Hcall.
  { unfold albums_worker, try_except, bind, ret. run_helper.
    fold (albums_request token artist_id 12). rewrite Hget, Hstatus. simpl.
    unfold resp_json. rewrite Hbody. simpl. by rewrite Hitems. }
  split; [by rewrite Hcall|]. intros Hne Hok. split.
  - unfold _render_albums_section, bind. rewrite Hcall. simpl. unfold ret. simpl.
    by rewrite populate_albums_rows_from.
  - apply rows_from_length. eapply Forall_impl; [exact Hok|].
    intros t Ht. by apply album_ok_returns.
Qed.

Lemma albums_not_truncated_witness :
  fst (albums_worker (constant_network thirteen_albums_response) (JStr "BQD")
         (JStr "4dpARuHxo51G3z768sgnrY") [])
  = Return (PopulateAlbums (JList thirteen_albums))
  ∧ length thirteen_albums = 13%nat.
Proof.
  split; [|reflexivity].
  eapply (albums_not_truncated (constant_network thirteen_albums_response) (JStr "BQD")
            (JStr "4dpARuHxo51G3z768sgnrY") [] thirteen_albums_response);
    reflexivity.
Defined.


(* ===================================================================== *)
(** * Searching *)
(* ===================================================================== *)



(** Rendering the search results starts by clearing the region. *)
Lemma render_artist_choices_clears (artists : json) (cs : list placed) :
  _render_artist_choices artists cs = _render_artist_choices artists [].
Proof. done. Qed.















(** X17. Opening the window never raises.  When [get_token] returns, its
    result is kept as the token and no box is shown; when it fails with [e],
    the token stays unset and one "Auth Error" box carries [str(e)].  Either
    way the results region shows the tip. *)
Theorem init_acquires_token (CLIENT_ID CLIENT_SECRET : option string) (net : network) :
  fst (SpotifyApp__init__ CLIENT_ID CLIENT_SECRET net blank_window) = Return tt
  ∧ scroll (snd (SpotifyApp__init__ CLIENT_ID CLIENT_SECRET net blank_window))
    = [(0, 0, tip_label)]
  ∧ (∀ t : json,
       fst (get_token CLIENT_ID CLIENT_SECRET net []) = Return t →
       token (snd (SpotifyApp__init__ CLIENT_ID CLIENT_SECRET net blank_window)) = t
       ∧ boxes (snd (SpotifyApp__init__ CLIENT_ID CLIENT_SECRET net blank_window)) = [])
  ∧ (∀ e : exn,
       fst (get_token CLIENT_ID CLIENT_SECRET net []) = Raise e →
       token (snd (SpotifyApp__init__ CLIENT_ID CLIENT_SECRET net blank_window)) = JNull
       ∧ boxes (snd (SpotifyApp__init__ CLIENT_ID CLIENT_SECRET net blank_window))
         = [showerror_box "Auth Error" (exn_str e)]).
Proof.
  unfold SpotifyApp__init__, _build_content, try_except, bind, with_scroll, with_requests.
  simpl. destruct (get_token CLIENT_ID CLIENT_SECRET net []) as [[t|e] sent']; simpl.
  - split; [done|]. split; [done|]. split; [by intros ? [= <-]|done].
  - split; [done|]. split; [done|]. split; [done|by intros ? [= <-]].
Qed.

Lemma init_acquires_token_witness :
  token (snd (SpotifyApp__init__ None (Some "s3cret") unreachable_network blank_window))
  = JNull
  ∧ boxes (snd (SpotifyApp__init__ None (Some "s3cret") unreachable_network blank_window))
    = [showerror_box "Auth Error" "Missing CLIENT_ID or CLIENT_SECRET in .env"].
Proof.
  destruct (init_acquires_token None (Some "s3cret") unreachable_network)
    as (_ & _ & _ & Hfail).
  apply (Hfail (RuntimeError "Missing CLIENT_ID or CLIENT_SECRET in .env")).
  reflexivity.
Defined.

(* ===================================================================== *)
(** * Opening an artist *)
(* ===================================================================== *)

Lemma join_strings_list (sep : string) (gs : list string) :
  join sep (JList (JStr <$> gs)) = Return (join_strings sep gs).
Proof. unfold join. simpl. by rewrite strings_of_strings. Qed.

Lemma artist_header_ok (m : gmap string json) :
  artist_page_ok m → artist_header (JObj m) = Return (artist_header_frame m).
Proof.
  intros [Hg Hu]. unfold artist_header, artist_header_frame, genre_names, track_url.
  simpl.
  assert (∃ gs : list string, default (JList []) (m !! "genres") = JList (JStr <$> gs)
            ∧ gs = match m !! "genres" with
                   | Some (JList gs) =>
                       omap (λ v, match v with JStr s => Some s | _ => None end) gs
                   | _ => []
                   end) as (gs & -> & <-).
  { destruct (m !! "genres") as [v|]; simpl.
    - destruct (Hg v eq_refl) as [gs ->]. exists gs. by rewrite genre_names_strings.
    - by exists []. }
  rewrite join_strings_list. simpl.
  destruct (m !! "external_urls") as [v|] eqn:Hv; simpl; [|done].
  by destruct (Hu v Hv) as [u ->].
Qed.

(** Each section worker sends its one request and hands one call over. *)
Lemma top_tracks_worker_returns (net : network) (token artist_id : json)
    (sent : list request) :
  ∃ call : ui_call,
    top_tracks_worker net token artist_id sent
    = (Return call, (sent ++ [top_tracks_request token artist_id "US"])%list).
Proof.
  pose proof (get_artist_top_tracks_sends net token artist_id "US" sent) as Hsent.
  unfold top_tracks_worker, try_except, bind, lift, ret,
    get_artist_top_tracks_default_market.
  destruct (get_artist_top_tracks _ _ _ _ _) as [[v|e] sent']; simpl in Hsent; subst.
  - destruct (slice_to 10 v); by eexists.
  - by eexists.
Qed.

Lemma albums_worker_returns (net : network) (token artist_id : json)
    (sent : list request) :
  ∃ call : ui_call,
    albums_worker net token artist_id sent
    = (Return call, (sent ++ [albums_request token artist_id 12])%list).
Proof.
  pose proof (get_artist_albums_sends net token artist_id 12 sent) as Hsent.
  unfold albums_worker, try_except, bind, ret.
  destruct (get_artist_albums _ _ _ _ _) as [[v|e] sent']; simpl in Hsent; subst;
    by eexists.
Qed.

(** What a section worker hands over depends on the answer to its own request
    only. *)
Lemma top_tracks_worker_answer (net1 net2 : network) (token artist_id : json)
    (sent1 sent2 : list request) :
  http_get net1 (top_tracks_request token artist_id "US")
  = http_get net2 (top_tracks_request token artist_id "US") →
  fst (top_tracks_worker net1 token artist_id sent1)
  = fst (top_tracks_worker net2 token artist_id sent2).
Proof.
  intros Hsame.
  unfold top_tracks_worker, try_except, get_artist_top_tracks_default_market, ret.
  run_helper. fold (top_tracks_request token artist_id "US").
  rewrite Hsame. destruct (http_get net2 _) as [resp|e]; [|done].
  destruct (negb _); [done|].
  destruct (resp_json resp) as [body|e]; [|done].
  destruct (getitem body "tracks") as [v|e]; [|done].
  simpl. by destruct (slice_to 10 v).
Qed.

Lemma albums_worker_answer (net1 net2 : network) (token artist_id : json)
    (sent1 sent2 : list request) :
  http_get net1 (albums_request token artist_id 12)
  = http_get net2 (albums_request token artist_id 12) →
  fst (albums_worker net1 token artist_id sent1)
  = fst (albums_worker net2 token artist_id sent2).
Proof.
  intros Hsame. unfold albums_worker, try_except, ret.
  run_helper. fold (albums_request token artist_id 12).
  rewrite Hsame. destruct (http_get net2 _) as [resp|e]; [|done].
  destruct (negb _); [done|].
  destruct (resp_json resp) as [body|e]; [|done].
  by destruct (getitem body "items").
Qed.

(** The page of an artist that has an [id], once both workers are done. *)
Lemma load_artist_run (net : network) (m : gmap string json) (artist_id : json)
    (a : SpotifyApp) :
  artist_page_ok m → m !! "id" = Some artist_id →
  ∃ top_call albums_call : ui_call,
    fst (top_tracks_worker net (token a) artist_id (requests a)) = Return top_call
    ∧ fst (albums_worker net (token a) artist_id
             (requests a ++ [top_tracks_request (token a) artist_id "US"])%list)
      = Return albums_call
    ∧ _load_artist net (JObj m) a
      = (Return tt,
         {| token := token a;
            current_artist := JObj m;
            scroll :=
              [(0, 0, artist_header_frame m);
               (1, 0, separator);
               (2, 0, CTkFrame [(0, 0, CTkLabel [FLit "🎵 Top Tracks"] None);
                                (1, 0, CTkFrame
                                         (snd (run_ui_call top_call loading_top_tracks)))]);
               (3, 0, CTkFrame [(0, 0, CTkLabel [FLit "📀 Albums / Releases"] None);
                                (1, 0, CTkFrame
                                         (snd (run_ui_call albums_call loading_albums)))])];
            requests := (requests a ++ [top_tracks_request (token a) artist_id "US";
                                        albums_request (token a) artist_id 12])%list;
            boxes := boxes a |}).
Proof.
  intros Hok Hid.
  destruct (top_tracks_worker_returns net (token a) artist_id (requests a))
    as [top_call Htop].
  destruct (albums_worker_returns net (token a) artist_id
              (requests a ++ [top_tracks_request (token a) artist_id "US"])%list)
    as [albums_call Halbums].
  exists top_call, albums_call. rewrite Htop, Halbums. split; [done|]. split; [done|].
  unfold _load_artist. rewrite artist_header_ok by done.
  unfold top_tracks_section, albums_section, _render_top_tracks_section,
    _render_albums_section, bind, modify, gets, lift, ret, with_scroll, with_requests,
    _clear_results, destroy_children, grid.
  simpl. rewrite Hid. simpl. rewrite Htop. simpl. rewrite Halbums. simpl.
  by rewrite <- app_assoc.
Qed.

(** X18. Opening an artist object that has no [id] raises [KeyError] for
    [id] once the header and the separator are on screen: the artist is
    recorded as current, the earlier results are gone, no section is created
    and no request is sent. *)
Theorem load_artist_missing_id (net : network) (m : gmap string json) (a : SpotifyApp) :
  artist_page_ok m → m !! "id" = None →
  _load_artist net (JObj m) a
  = (Raise (KeyError "id"),
     set_scroll [(0, 0, artist_header_frame m); (1, 0, separator)]
       (set_current_artist (JObj m) a)).
Proof.
  intros Hok Hid. unfold _load_artist. rewrite artist_header_ok by done.
  unfold bind, modify, lift, with_scroll, _clear_results, destroy_children, grid.
  simpl. by rewrite Hid.
Qed.

Lemma load_artist_missing_id_witness :
  _load_artist unreachable_network (JObj adele_roberts_fields) ready_window
  = (Raise (KeyError "id"),
     set_scroll [(0, 0, artist_header_frame adele_roberts_fields); (1, 0, separator)]
       (set_current_artist (JObj adele_roberts_fields) ready_window)).
Proof.
  apply (load_artist_missing_id unreachable_network adele_roberts_fields ready_window).
  - split; intros v Hv; vm_compute in Hv; discriminate.
  - reflexivity.
Defined.

Lemma adele_page_ok : artist_page_ok adele_fields.
Proof.
  split; intros v Hv; vm_compute in Hv.
  - injection Hv as <-. by exists ["british soul"; "pop"; "pop soul"; "uk pop"].
  - discriminate.
Qed.

(** X19. Opening an artist object that has an [id] returns whatever the
    catalog does, and sends exactly two requests with the token in hand: the
    top tracks of that [id] for market "US", then its albums with limit 12.
    The region then holds four children: header, separator and the two
    sections, in grid rows 0 to 3. *)
Theorem load_artist_two_requests (net : network) (m : gmap string json)
    (artist_id : json) (a : SpotifyApp) :
  artist_page_ok m → m !! "id" = Some artist_id →
  fst (_load_artist net (JObj m) a) = Return tt
  ∧ requests (snd (_load_artist net (JObj m) a))
    = (requests a ++ [top_tracks_request (token a) artist_id "US";
                      albums_request (token a) artist_id 12])%list
  ∧ current_artist (snd (_load_artist net (JObj m) a)) = JObj m
  ∧ token (snd (_load_artist net (JObj m) a)) = token a
  ∧ (scroll (snd (_load_artist net (JObj m) a))).*1 = [(0, 0); (1, 0); (2, 0); (3, 0)]
  ∧ scroll (snd (_load_artist net (JObj m) a)) !! 0%nat
    = Some (0, 0, artist_header_frame m).
Proof.
  intros Hok Hid.
  destruct (load_artist_run net m artist_id a Hok Hid) as (tc & ac & _ & _ & ->).
  done.
Qed.

Lemma load_artist_two_requests_witness :
  requests (snd (_load_artist unreachable_network (JObj adele_fields) ready_window))
  = [top_tracks_request (JStr "BQD") (JStr "4dpARuHxo51G3z768sgnrY") "US";
     albums_request (JStr "BQD") (JStr "4dpARuHxo51G3z768sgnrY") 12].
Proof.
  apply (load_artist_two_requests unreachable_network adele_fields
           (JStr "4dpARuHxo51G3z768sgnrY") ready_window).
  - apply adele_page_ok.
  - reflexivity.
Defined.

(** X20. The two sections of an artist page do not depend on each other: if
    two catalogs give the same answer to the albums request, the albums
    section is the same under both, whatever they answer to the top-tracks
    request; and likewise for the top-tracks section. *)
Theorem sections_independent (net1 net2 : network) (m : gmap string json)
    (artist_id : json) (a : SpotifyApp) :
  artist_page_ok m → m !! "id" = Some artist_id →
  (http_get net1 (albums_request (token a) artist_id 12)
   = http_get net2 (albums_request (token a) artist_id 12) →
   scroll (snd (_load_artist net1 (JObj m) a)) !! 3%nat
   = scroll (snd (_load_artist net2 (JObj m) a)) !! 3%nat)
  ∧ (http_get net1 (top_tracks_request (token a) artist_id "US")
     = http_get net2 (top_tracks_request (token a) artist_id "US") →
     scroll (snd (_load_artist net1 (JObj m) a)) !! 2%nat
     = scroll (snd (_load_artist net2 (JObj m) a)) !! 2%nat).
Proof.
  intros Hok Hid.
  destruct (load_artist_run net1 m artist_id a Hok Hid) as (tc1 & ac1 & Ht1 & Ha1 & ->).
  destruct (load_artist_run net2 m artist_id a Hok Hid) as (tc2 & ac2 & Ht2 & Ha2 & ->).
  simpl. split; intros Hsame.
  - pose proof (albums_worker_answer net1 net2 (token a) artist_id
                  (requests a ++ [top_tracks_request (token a) artist_id "US"])%list
                  (requests a ++ [top_tracks_request (token a) artist_id "US"])%list
                  Hsame) as Heq.
    rewrite Ha1, Ha2 in Heq. by injection Heq as ->.
  - pose proof (top_tracks_worker_answer net1 net2 (token a) artist_id
                  (requests a) (requests a) Hsame) as Heq.
    rewrite Ht1, Ht2 in Heq. by injection Heq as ->.
Qed.

Lemma sections_independent_witness :
  scroll (snd (_load_artist (constant_network thirteen_albums_response)
                 (JObj adele_fields) ready_window)) !! 3%nat
  = scroll (snd (_load_artist (limit_only_network thirteen_albums_response)
                   (JObj adele_fields) ready_window)) !! 3%nat.
Proof.
  apply (sections_independent (constant_network thirteen_albums_response)
           (limit_only_network thirteen_albums_response) adele_fields
           (JStr "4dpARuHxo51G3z768sgnrY") ready_window).
  - apply adele_page_ok.
  - reflexivity.
  - reflexivity.
Defined.

(** X21. The header of an artist page is built for every artist object whose
    [genres] and [external_urls] are well typed.  It lists all the genres,
    joined by ", ", where a search row shows three at most; missing or empty
    genres and a missing popularity show as "N/A", a missing name as
    "Unknown". *)
Theorem artist_header_all_genres (m : gmap string json) :
  artist_page_ok m →
  ∃ (name popularity url : json) (genres : string),
    artist_header (JObj m)
    = Return
        (CTkFrame
           [(0, 0, CTkLabel [FLit "🎤 "; FVal name] None);
            (1, 0, CTkLabel [FLit "🔥 Popularity: "; FVal popularity;
                             FLit "   ·   🎶 Genres: "; FVal (JStr genres)] None);
            (0, 1, CTkButton "Open Artist on Spotify" normal (Some (CmdOpenUrl url)))])
    ∧ (∀ gs : list string,
         m !! "genres" = Some (JList (JStr <$> gs)) →
         genres = str_or (join_strings ", " gs) "N/A")
    ∧ (m !! "genres" = None → genres = "N/A")
    ∧ (m !! "popularity" = None → popularity = JStr "N/A")
    ∧ (m !! "name" = None → name = JStr "Unknown")
    ∧ (m !! "external_urls" = None → url = JStr "").
Proof.
  intros Hok. eexists _, _, _, _. split; [by apply artist_header_ok|].
  unfold genre_names, track_url.
  split; [intros gs ->; by rewrite genre_names_strings|].
  split; [by intros ->|]. split; [by intros ->|]. split; by intros ->.
Qed.

Lemma artist_header_all_genres_witness :
  ∃ (name popularity url : json),
    artist_header (JObj adele_fields)
    = Return
        (CTkFrame
           [(0, 0, CTkLabel [FLit "🎤 "; FVal name] None);
            (1, 0, CTkLabel [FLit "🔥 Popularity: "; FVal popularity;
                             FLit "   ·   🎶 Genres: ";
                             FVal (JStr "british soul, pop, pop soul, uk pop")] None);
            (0, 1, CTkButton "Open Artist on Spotify" normal (Some (CmdOpenUrl url)))]).
Proof.
  destruct (artist_header_all_genres adele_fields adele_page_ok)
    as (name & popularity & url & genres & Hheader & Hgenres & _).
  exists name, popularity, url. rewrite Hheader.
  rewrite (Hgenres ["british soul"; "pop"; "pop soul"; "uk pop"]) by reflexivity.
  reflexivity.
Defined.

(** The header of the sample artist, next to her search row. *)
Example adele_header_and_row :
  artist_header (JObj adele_fields) = Return (artist_header_frame adele_fields)
  ∧ fstring_str [FLit "🔥 Popularity: "; FVal (JStr "N/A"); FLit "   ·   🎶 Genres: ";
                 FVal (JStr "british soul, pop, pop soul, uk pop")]
    = Some "🔥 Popularity: N/A   ·   🎶 Genres: british soul, pop, pop soul, uk pop"
  ∧ artist_row_widget (JObj adele_fields)
    = Return (artist_frame (JObj adele_fields) (JStr "Adele") (JNum 100)
                "british soul, pop, pop soul").
Proof. repeat split. Qed.

(* ===================================================================== *)
(** * Playing previews: files, the mixer, failures *)
(* ===================================================================== *)

Lemma ensure_init_after (env : play_env) (w : world) :
  (initialized (player w) = false → mixer_init_outcome env = None) →
  _ensure_init env w = (Return tt, after_init w).
Proof.
  intros Hinit. unfold _ensure_init, after_init, mixer_init, bind, gets, outcome,
    modify, ret.
  simpl. destruct (initialized (player w)); simpl; [done|]. by rewrite Hinit.
Qed.

Lemma after_init_ready (w : world) :
  engine_linked w →
  initialized (player (after_init w)) = true ∧ mixer_ready (engine (after_init w)) = true.
Proof.
  intros Hw. unfold after_init. destruct (initialized (player w)) eqn:Hinit; [|done].
  split; [done|]. by apply Hw.
Qed.

(** A play operation in which nothing fails. *)
Lemma worker_body_success (env : play_env) (url : json) (r : response) (tmp : string)
    (w : world) :
  engine_linked w →
  (initialized (player w) = false → mixer_init_outcome env = None) →
  env_works env url r tmp →
  worker_body env url w = (Return tt, playing url r tmp w).
Proof.
  intros Hw Hinit (Hget & Hstatus%Z.eqb_eq & Htmp & Hwrite & Hflush & Hclose & Hload & Hplay).
  destruct (after_init_ready w Hw) as [_ Hready].
  unfold worker_body. unfold bind at 1. rewrite ensure_init_after by done.
  unfold bind at 1. rewrite download_world, Hget, Hstatus. simpl.
  unfold NamedTemporaryFile, tmp_write, tmp_flush, tmp_close, music_load, music_play,
    bind, lift, modify, gets, outcome, ret, raise.
  rewrite Htmp, Hwrite, Hflush, Hclose, Hload, Hplay. simpl.
  repeat (rewrite Hready; simpl).
  unfold playing, after_init. f_equal.
  unfold set_player, set_engine, set_files, set_sent, set_is_playing, set_current_file,
    set_initialized.
  destruct (initialized (player w)) eqn:Hi; simpl; rewrite insert_insert_eq.
  - by rewrite Hi, (Hw Hi).
  - done.
Qed.

(** X22. When nothing fails and the download is answered with status 200, a
    play operation returns and leaves the player initialised and playing: the
    download went out as one GET of the URL, its content is in the new
    temporary file, which is the current file and the one the mixer has loaded
    and plays; the failure callback is not called. *)
Theorem play_succeeds (env : play_env) (url : json) (r : response) (tmp : string)
    (on_error : option (string → M world unit)) (w : world) :
  engine_linked w →
  (initialized (player w) = false → mixer_init_outcome env = None) →
  env_works env url r tmp →
  play_from_url env url on_error w = (Return tt, playing url r tmp w)
  ∧ files (playing url r tmp w) !! tmp = Some (content r)
  ∧ sent (playing url r tmp w) = (sent w ++ [preview_request url])%list.
Proof.
  intros Hw Hinit Henv. split; [|split; [apply lookup_insert_eq|done]].
  unfold play_from_url, Thread_start, worker, try_except.
  by rewrite (worker_body_success env url r tmp w).
Qed.

Lemma working_env_works (url : json) (r : response) (tmp : string) :
  status_code r = 200 → env_works (working_env r tmp) url r tmp.
Proof. intros Hstatus. repeat split; done. Qed.

Lemma play_succeeds_witness :
  play_from_url (working_env first_preview "/tmp/tmp1.mp3")
    (JStr "https://p.scdn.co/mp3-preview/1") None world_init
  = (Return tt,
     playing (JStr "https://p.scdn.co/mp3-preview/1") first_preview "/tmp/tmp1.mp3"
       world_init).
Proof.
  apply (play_succeeds (working_env first_preview "/tmp/tmp1.mp3")
           (JStr "https://p.scdn.co/mp3-preview/1") first_preview "/tmp/tmp1.mp3" None
           world_init).
  - intros Hinit. discriminate Hinit.
  - reflexivity.
  - apply working_env_works. reflexivity.
Defined.

Section RemovesNoFile.
Lemma removes_no_file_ret {A} (a : A) : removes_no_file (ret a).
Proof. by intros w. Qed.

Lemma removes_no_file_raise {A} (e : exn) : removes_no_file (raise (A:=A) e).
Proof. by intros w. Qed.

Lemma removes_no_file_lift {A} (r : result A) : removes_no_file (lift r).
Proof. by intros w. Qed.

Lemma removes_no_file_gets {A} (f : world → A) : removes_no_file (gets f).
Proof. by intros w. Qed.

Lemma removes_no_file_outcome (o : option exn) : removes_no_file (outcome o).
Proof. by destruct o; intros w. Qed.

Lemma removes_no_file_modify (f : world → world) :
  (∀ w, dom (files w) ⊆ dom (files (f w))) → removes_no_file (modify f).
Proof. intros Hf w. apply Hf. Qed.

Lemma removes_no_file_bind {A A'} (c : M world A) (k : A → M world A') :
  removes_no_file c → (∀ a, removes_no_file (k a)) → removes_no_file (bind c k).
Proof.
  intros Hc Hk w. unfold bind. specialize (Hc w).
  destruct (c w) as [[a|e] w']; simpl in *; [|done].
  etrans; [exact Hc|apply Hk].
Qed.

Lemma removes_no_file_try_except {A} (body : M world A) (handler : exn → M world A) :
  removes_no_file body → (∀ e, removes_no_file (handler e)) →
  removes_no_file (try_except body handler).
Proof.
  intros Hb Hh w. unfold try_except. specialize (Hb w).
  destruct (body w) as [[a|e] w']; simpl in *; [done|].
  etrans; [exact Hb|apply Hh].
Qed.

Lemma removes_no_file_if {A} (b : bool) (c1 c2 : M world A) :
  removes_no_file c1 → removes_no_file c2 → removes_no_file (if b then c1 else c2).
Proof. by destruct b. Qed.

Lemma removes_no_file_Thread_start (target : M world unit) :
  removes_no_file target → removes_no_file (Thread_start target).
Proof. intros Ht w. apply Ht. Qed.

Lemma removes_no_file_download (env : play_env) (url : json) :
  removes_no_file (download env url).
Proof. intros w. by rewrite download_world. Qed.
End RemovesNoFile.

Ltac removes_no_file_steps :=
  repeat first
    [ apply removes_no_file_bind; [|intros ?]
    | apply removes_no_file_try_except; [|intros ?]
    | apply removes_no_file_if
    | apply removes_no_file_download
    | apply removes_no_file_ret
    | apply removes_no_file_raise
    | apply removes_no_file_lift
    | apply removes_no_file_gets
    | apply removes_no_file_outcome
    | apply removes_no_file_modify; intros ?; simpl; set_solver ].

(** X23. Neither playing a preview nor stopping ever removes a temporary
    file: every path that is on disk before the operation is on disk after it,
    whether the operation succeeds or fails. *)
Theorem temp_files_never_removed (format_exc : exn → string) (env : play_env)
    (url : json) (w : world) :
  dom (files w) ⊆ dom (files (snd (_safe_play_preview format_exc env url w)))
  ∧ dom (files w) ⊆ dom (files (snd (stop w))).
Proof.
  split.
  - enough (removes_no_file (_safe_play_preview format_exc env url)) as H by apply H.
    unfold _safe_play_preview, play_from_url, worker, worker_body, worker_handler,
      _ensure_init, mixer_init, NamedTemporaryFile, tmp_write, tmp_flush, tmp_close,
      music_load, music_play, Preview.showerror.
    apply removes_no_file_try_except; [apply removes_no_file_Thread_start|intros ?];
      removes_no_file_steps.
  - enough (removes_no_file stop) as H by apply H.
    unfold stop, music_stop. removes_no_file_steps.
Qed.

Lemma playing_linked (url : json) (r : response) (tmp : string) (w : world) :
  engine_linked (playing url r tmp w).
Proof. by intros _. Qed.

(** X24. Two previews played one after the other, each into its own temporary
    file: the second replaces the first as current file and as the file the
    mixer has loaded, and the file of the first stays on disk with its content,
    no longer referred to by the player. *)
Theorem second_play_leaks_first_file (env1 env2 : play_env) (url1 url2 : json)
    (r1 r2 : response) (tmp1 tmp2 : string) (w : world) :
  engine_linked w →
  (initialized (player w) = false → mixer_init_outcome env1 = None) →
  env_works env1 url1 r1 tmp1 →
  env_works env2 url2 r2 tmp2 →
  tmp1 ≠ tmp2 →
  ∃ w2 : world,
    snd (play_from_url env2 url2 None (snd (play_from_url env1 url1 None w))) = w2
    ∧ files w2 !! tmp1 = Some (content r1)
    ∧ files w2 !! tmp2 = Some (content r2)
    ∧ current_file (player w2) = Some tmp2
    ∧ music_loaded (engine w2) = Some tmp2
    ∧ is_playing (player w2) = true.
Proof.
  intros Hw Hinit Henv1 Henv2 Hne. eexists. split; [reflexivity|].
  unfold play_from_url, Thread_start, worker, try_except. simpl.
  rewrite (worker_body_success env1 url1 r1 tmp1 w) by done. simpl.
  rewrite (worker_body_success env2 url2 r2 tmp2) by (done || apply playing_linked).
  simpl. split; [|split; [|done]].
  - rewrite lookup_insert_ne by done. apply lookup_insert_eq.
  - apply lookup_insert_eq.
Qed.

Lemma second_play_leaks_first_file_witness :
  ∃ w2 : world,
    snd (play_from_url (working_env second_preview "/tmp/tmp2.mp3")
           (JStr "https://p.scdn.co/mp3-preview/2") None
           (snd (play_from_url (working_env first_preview "/tmp/tmp1.mp3")
                   (JStr "https://p.scdn.co/mp3-preview/1") None world_init))) = w2
    ∧ files w2 !! "/tmp/tmp1.mp3" = Some "ID3-one"
    ∧ files w2 !! "/tmp/tmp2.mp3" = Some "ID3-two".
Proof.
  destruct (second_play_leaks_first_file
              (working_env first_preview "/tmp/tmp1.mp3")
              (working_env second_preview "/tmp/tmp2.mp3")
              (JStr "https://p.scdn.co/mp3-preview/1")
              (JStr "https://p.scdn.co/mp3-preview/2")
              first_preview second_preview "/tmp/tmp1.mp3" "/tmp/tmp2.mp3" world_init)
    as (w2 & Hw2 & Hfirst & Hsecond & _).
  - intros Hinit. discriminate Hinit.
  - reflexivity.
  - apply working_env_works. reflexivity.
  - apply working_env_works. reflexivity.
  - discriminate.
  - exists w2. split; [exact Hw2|]. split; [exact Hfirst | exact Hsecond].
Defined.

Lemma bind_ensure_init {A} (env : play_env) (k : unit → M world A) (w : world) :
  initialized (player w) = true → bind (_ensure_init env) k w = k tt w.
Proof.
  intros Hinit. unfold bind at 1. unfold _ensure_init, bind, gets, ret.
  by rewrite Hinit.
Qed.

(** X25. The mixer is initialised once: for a player that is initialised, a
    play operation does not call [pygame.mixer.init()] again, so its outcome
    is the same whatever that call would answer. *)
Theorem mixer_initialised_once (env : play_env) (url : json)
    (on_error : option (string → M world unit)) (w : world) (o : option exn) :
  initialized (player w) = true →
  play_from_url (with_mixer_init o env) url on_error w = play_from_url env url on_error w.
Proof.
  intros Hinit.
  unfold play_from_url, Thread_start, worker, try_except, worker_body.
  rewrite !bind_ensure_init by done. reflexivity.
Qed.

Lemma mixer_initialised_once_witness :
  play_from_url
    (with_mixer_init (Some mixer_not_initialized)
       (working_env second_preview "/tmp/tmp2.mp3"))
    (JStr "https://p.scdn.co/mp3-preview/2") None playing_world
  = play_from_url (working_env second_preview "/tmp/tmp2.mp3")
      (JStr "https://p.scdn.co/mp3-preview/2") None playing_world.
Proof.
  apply (mixer_initialised_once (working_env second_preview "/tmp/tmp2.mp3")
           (JStr "https://p.scdn.co/mp3-preview/2") None playing_world
           (Some mixer_not_initialized)).
  reflexivity.
Defined.

(** X26. When the mixer cannot be initialised, a preview started from a button
    fails before anything else happens: nothing is downloaded, no temporary
    file is created and the player stays uninitialised, so that the next play
    tries again and a stop remains without effect; one "Preview Error" box
    carries the engine's message. *)
Theorem play_without_mixer (format_exc : exn → string) (env : play_env) (url : json)
    (w : world) (e : exn) :
  initialized (player w) = false → mixer_init_outcome env = Some e →
  _safe_play_preview format_exc env url w
  = (Return tt,
     set_dialogs (λ ds, (ds ++ [("Preview Error", exn_str e)])%list)
       (set_player (set_is_playing false) w))
  ∧ sent (snd (_safe_play_preview format_exc env url w)) = sent w
  ∧ files (snd (_safe_play_preview format_exc env url w)) = files w
  ∧ initialized (player (snd (_safe_play_preview format_exc env url w))) = false
  ∧ stop (snd (_safe_play_preview format_exc env url w))
    = (Return tt, snd (_safe_play_preview format_exc env url w)).
Proof.
  intros Hinit He.
  assert (_safe_play_preview format_exc env url w
          = (Return tt,
             set_dialogs (λ ds, (ds ++ [("Preview Error", exn_str e)])%list)
               (set_player (set_is_playing false) w))) as ->.
  { unfold _safe_play_preview, try_except, play_from_url, Thread_start, worker,
      try_except.
    by rewrite (worker_body_mixer_fails env url w e). }
  simpl. repeat split; [done|]. by rewrite stop_uninitialized.
Qed.

Lemma play_without_mixer_witness :
  _safe_play_preview (λ _, "")
    (with_mixer_init (Some (ExternalError "pygame.error" "No available audio device"))
       (working_env first_preview "/tmp/tmp1.mp3"))
    (JStr "https://p.scdn.co/mp3-preview/1") world_init
  = (Return tt,
     set_dialogs (λ ds, (ds ++ [("Preview Error", "No available audio device")])%list)
       (set_player (set_is_playing false) world_init)).
Proof.
  apply (play_without_mixer (λ _, "")
           (with_mixer_init (Some (ExternalError "pygame.error" "No available audio device"))
              (working_env first_preview "/tmp/tmp1.mp3"))
           (JStr "https://p.scdn.co/mp3-preview/1") world_init
           (ExternalError "pygame.error" "No available audio device"));
    reflexivity.
Defined.

(** X27. When the download is answered with a status other than 200, the
    preview is given up before any file is created: the temporary files, the
    current file and what the mixer has loaded and plays are as before, the
    player is marked as not playing, and one "Preview Error" box names the
    status. *)
Theorem play_bad_status (format_exc : exn → string) (env : play_env) (url : json)
    (w : world) (r : response) :
  (initialized (player w) = false → mixer_init_outcome env = None) →
  http_get (net env) (preview_request url) = Return r →
  status_code r ≠ 200 →
  ∃ w' : world,
    _safe_play_preview format_exc env url w = (Return tt, w')
    ∧ files w' = files w
    ∧ current_file (player w') = current_file (player w)
    ∧ music_loaded (engine w') = music_loaded (engine w)
    ∧ music_busy (engine w') = music_busy (engine w)
    ∧ is_playing (player w') = false
    ∧ sent w' = (sent w ++ [preview_request url])%list
    ∧ dialogs w'
      = (dialogs w
         ++ [("Preview Error",
              ("Preview download error [" ++ int_str (status_code r) ++ "]")%string)])%list.
Proof.
  intros Hinit Hget Hstatus%Z.eqb_neq.
  assert (worker_body env url w
          = (Raise (RuntimeError ("Preview download error [" ++ int_str (status_code r)
                                  ++ "]")),
             set_sent (λ _, (sent (after_init w) ++ [preview_request url])%list)
               (after_init w))) as Hbody.
  { unfold worker_body. unfold bind at 1. rewrite ensure_init_after by done.
    unfold bind at 1. rewrite download_world, Hget, Hstatus. done. }
  eexists. split.
  - unfold _safe_play_preview, try_except, play_from_url, Thread_start, worker,
      try_except.
    rewrite Hbody. reflexivity.
  - unfold after_init. destruct (initialized (player w)); done.
Qed.

Lemma play_bad_status_witness :
  ∃ w' : world,
    _safe_play_preview (λ _, "") not_found_env (JStr "https://p.scdn.co/mp3-preview/1")
      playing_world = (Return tt, w')
    ∧ files w' = files playing_world
    ∧ current_file (player w') = Some "/tmp/tmpa1b2c3.mp3".
Proof.
  destruct (play_bad_status (λ _, "") not_found_env
              (JStr "https://p.scdn.co/mp3-preview/1") playing_world
              (json_response 404 "Not Found" None))
    as (w' & Hrun & Hfiles & Hcurrent & _).
  - intros _. reflexivity.
  - reflexivity.
  - simpl. lia.
  - exists w'. split; [exact Hrun|]. split; [exact Hfiles | exact Hcurrent].
Defined.

(** X28. Stopping after a successful play halts the music and marks the
    player as not playing, and nothing else: the file stays the current file,
    stays loaded in the mixer and stays on disk with the downloaded content. *)
Theorem stop_after_play (env : play_env) (url : json) (r : response) (tmp : string)
    (w : world) :
  engine_linked w →
  (initialized (player w) = false → mixer_init_outcome env = None) →
  env_works env url r tmp →
  ∃ w' : world,
    stop (snd (play_from_url env url None w)) = (Return tt, w')
    ∧ is_playing (player w') = false
    ∧ music_busy (engine w') = false
    ∧ current_file (player w') = Some tmp
    ∧ music_loaded (engine w') = Some tmp
    ∧ files w' !! tmp = Some (content r).
Proof.
  intros Hw Hinit Henv.
  unfold play_from_url, Thread_start, worker, try_except. simpl.
  rewrite (worker_body_success env url r tmp w) by done. simpl.
  rewrite stop_initialized by done.
  eexists. split; [reflexivity|]. simpl. repeat split. apply lookup_insert_eq.
Qed.

Lemma stop_after_play_witness :
  ∃ w' : world,
    stop (snd (play_from_url (working_env first_preview "/tmp/tmp1.mp3")
                 (JStr "https://p.scdn.co/mp3-preview/1") None world_init))
    = (Return tt, w')
    ∧ is_playing (player w') = false
    ∧ files w' !! "/tmp/tmp1.mp3" = Some "ID3-one".
Proof.
  destruct (stop_after_play (working_env first_preview "/tmp/tmp1.mp3")
              (JStr "https://p.scdn.co/mp3-preview/1") first_preview "/tmp/tmp1.mp3"
              world_init)
    as (w' & Hstop & Hplaying & _ & _ & _ & Hfile).
  - intros Hinit. discriminate Hinit.
  - intros _. reflexivity.
  - apply working_env_works. reflexivity.
  - exists w'. split; [exact Hstop|]. split; [exact Hplaying | exact Hfile].
Defined.
